(** * Basel Precision Instruments LNHR DAC II (SP1060) driver

    A shallow embedding of [pymeasure/instruments/baspi/sp1060.py]:
    the voltage codec of [DACChannel] (the 24-bit wire code), the
    set-command handshake, and the bulk operations of [BaspiLNHRDACII]
    ([enabled_channels], [disable_all]).

    Python [float] is IEEE 754 binary64; it is modelled by the standard
    library's executable specification [spec_float] at precision 53 and
    maximal exponent 1024, so every float operation of the driver is
    evaluated with its rounding.  Python [int] is [Z], [str] is [string].
    The instrument's I/O is a state-and-exception monad over the record of
    what was written to and what is still to be read from the adapter. *)

From Stdlib Require Import ZArith List String Ascii Bool Lia QArith Qabs Qpower Lqa Sorted.
From Stdlib Require Import Floats.SpecFloat.
Import ListNotations.

Local Open Scope Z_scope.

(** ** Python exceptions and fallible results *)

Inductive exn : Type :=
| ValueError (msg : string)
| OverflowError (msg : string)
| ZeroDivisionError (msg : string)
| RuntimeError (msg : string)
| ReadTimeout.

Inductive res (A : Type) : Type :=
| Ok (a : A)
| Raise (e : exn).
Arguments Ok {A} a.
Arguments Raise {A} e.

Definition res_bind {A B} (r : res A) (k : A -> res B) : res B :=
  match r with
  | Ok a => k a
  | Raise e => Raise e
  end.

Declare Scope res_scope.
Delimit Scope res_scope with res.
Notation "x <- r ;; k" := (res_bind r (fun x => k))
  (at level 61, r at next level, right associativity) : res_scope.

(** ** Python builtins used by the driver *)
Module Py.

(** *** [float]: IEEE 754 binary64 *)

Definition prec : Z := 53.
Definition emax : Z := 1024.

Definition float : Type := spec_float.

Definition fadd : float -> float -> float := SFadd prec emax.
Definition fsub : float -> float -> float := SFsub prec emax.
Definition fmul : float -> float -> float := SFmul prec emax.
Definition fdiv : float -> float -> float := SFdiv prec emax.
Definition fle : float -> float -> bool := SFleb.
Definition flt : float -> float -> bool := SFltb.

(** [float(n)] for an [int] [n], as done implicitly by [int + float],
    [int * float] and [int / float]: round to nearest even; a magnitude
    beyond the largest double raises [OverflowError]. *)
Definition float_of_int (n : Z) : res float :=
  match binary_normalize prec emax n 0 false with
  | S754_infinity _ => Raise (OverflowError "int too large to convert to float")
  | f => Ok f
  end.

(** An [int] small enough to be exact, read as a [float]. *)
Definition fconst (n : Z) : float := binary_normalize prec emax n 0 false.

(** An [int] as an operand that is not rounded. *)
Definition exact_int (n : Z) : float :=
  match n with
  | Z0 => S754_zero false
  | Zpos p => S754_finite false p 0
  | Zneg p => S754_finite true p 0
  end.

(** [a / b] for two [int]s: the quotient of the integers, rounded once.
    Operands below [2 ^ 53] in magnitude are converted to floats, which
    is exact, and divided as floats; larger ones are divided as they
    are.  A zero divisor raises [ZeroDivisionError], a quotient beyond
    the largest double [OverflowError]. *)
Definition int_truediv (a b : Z) : res float :=
  if b =? 0 then Raise (ZeroDivisionError "division by zero")
  else if (Z.abs a <? 2 ^ 53) && (Z.abs b <? 2 ^ 53)
  then Ok (fdiv (fconst a) (fconst b))
  else match SFdiv prec emax (exact_int a) (exact_int b) with
       | S754_infinity _ =>
           Raise (OverflowError "integer division result too large for a float")
       | f => Ok f
       end.

(** A number as the driver meets it: an [int] or a [float]. *)
Inductive num : Type :=
| PInt (n : Z)
| PFloat (x : float).

(** [a <= b] and [a > b] between a number and an [int] bound; Python
    compares an [int] with a [float] exactly, and the bounds used here
    are exact as floats. *)
Definition num_le_int (a : num) (b : Z) : bool :=
  match a with
  | PInt n => n <=? b
  | PFloat x => fle x (fconst b)
  end.

Definition int_le_num (a : Z) (b : num) : bool :=
  match b with
  | PInt n => a <=? n
  | PFloat x => fle (fconst a) x
  end.

Definition num_gt_int (a : num) (b : Z) : bool :=
  match a with
  | PInt n => b <? n
  | PFloat x => flt (fconst b) x
  end.

(** [v + k] for an [int] constant [k]. *)
Definition num_add_int (v : num) (k : Z) : res num :=
  match v with
  | PInt n => Ok (PInt (n + k))
  | PFloat x => (y <- float_of_int k ;; Ok (PFloat (fadd x y)))%res
  end.

(** [v * c] for a [float] constant [c]: always a [float]. *)
Definition num_mul_float (v : num) (c : float) : res float :=
  match v with
  | PInt n => (y <- float_of_int n ;; Ok (fmul y c))%res
  | PFloat x => Ok (fmul x c)
  end.

(** [int(x)] for a [float] [x]: truncation towards zero. *)
Definition int_of_float (x : float) : res Z :=
  match x with
  | S754_zero _ => Ok 0
  | S754_finite s m e =>
      Ok (cond_Zopp s
            (match e with
             | Zneg k => Z.shiftr (Zpos m) (Zpos k)
             | _ => Z.shiftl (Zpos m) e
             end))
  | S754_infinity _ => Raise (OverflowError "cannot convert float infinity to integer")
  | S754_nan => Raise (ValueError "cannot convert float NaN to integer")
  end.

(** The real number a float stands for (0 for the non-finite ones). *)
Definition F2Q (x : float) : Q :=
  match x with
  | S754_finite s m e => inject_Z (cond_Zopp s (Zpos m)) * Qpower 2 e
  | _ => 0%Q
  end.

Definition is_finite (x : float) : bool :=
  match x with
  | S754_zero _ | S754_finite _ _ _ => true
  | _ => false
  end.

(** *** [str]: characters, [strip], [split] *)

Definition CR : ascii := ascii_of_nat 13.
Definition LF : ascii := ascii_of_nat 10.

(** A [str] is a [string] of code points below 256.  [str.isspace] on
    one of them: the controls 9 to 13 and 28 to 31, the space, and of the
    upper half the next-line control (133) and the no-break space
    (160). *)
Definition isspace (c : ascii) : bool :=
  let n := Z.of_nat (nat_of_ascii c) in
  ((9 <=? n) && (n <=? 13)) || ((28 <=? n) && (n <=? 32))
  || (n =? 133) || (n =? 160).

Fixpoint lstrip (cs : list ascii) : list ascii :=
  match cs with
  | c :: cs' => if isspace c then lstrip cs' else cs
  | [] => []
  end.

Definition rstrip (cs : list ascii) : list ascii := rev (lstrip (rev cs)).

(** [s.strip()] *)
Definition strip (s : string) : string :=
  string_of_list_ascii (rstrip (lstrip (list_ascii_of_string s))).

(** [s.split(sep)] for a one-character separator: the fields between the
    separators, empty fields included; never an empty list. *)
Fixpoint split_chars (sep : ascii) (cs : list ascii) (cur : list ascii)
  : list string :=
  match cs with
  | [] => [string_of_list_ascii (rev cur)]
  | c :: cs' =>
      if Ascii.eqb c sep
      then string_of_list_ascii (rev cur) :: split_chars sep cs' []
      else split_chars sep cs' (c :: cur)
  end.

Definition split (sep : ascii) (s : string) : list string :=
  split_chars sep (list_ascii_of_string s) [].

(** Truth value of a [str]: non-empty. *)
Definition str_truthy (s : string) : bool :=
  match s with
  | EmptyString => false
  | _ => true
  end.

(** [zip(xs, ys)]: pairs up to the shorter of the two. *)
Fixpoint zip {A B} (xs : list A) (ys : list B) : list (A * B) :=
  match xs, ys with
  | x :: xs', y :: ys' => (x, y) :: zip xs' ys'
  | _, _ => []
  end.

(** *** Hexadecimal: [int(s, 16)] and the format [06X] *)

Definition hex_digit_value (c : ascii) : option Z :=
  let n := Z.of_nat (nat_of_ascii c) in
  if (48 <=? n) && (n <=? 57) then Some (n - 48)
  else if (65 <=? n) && (n <=? 70) then Some (n - 55)
  else if (97 <=? n) && (n <=? 102) then Some (n - 87)
  else None.

(** The digits of an [int] literal: hexadecimal digits, single
    underscores allowed between two digits.  [after_us] says that the
    previous character was not a digit (start of the digits, or an
    underscore). *)
Fixpoint hex_digits_value (cs : list ascii) (acc : Z) (after_us : bool)
  : option Z :=
  match cs with
  | [] => if after_us then None else Some acc
  | c :: cs' =>
      if Ascii.eqb c "_"%char
      then if after_us then None else hex_digits_value cs' acc true
      else match hex_digit_value c with
           | Some d => hex_digits_value cs' (16 * acc + d) false
           | None => None
           end
  end.

Definition is_x (c : ascii) : bool :=
  Ascii.eqb c "x"%char || Ascii.eqb c "X"%char.

(** After the sign: an optional [0x]/[0X] prefix (with one optional
    underscore behind it), then the digits. *)
Definition hex_unsigned (cs : list ascii) : option Z :=
  match cs with
  | z :: x :: rest =>
      if Ascii.eqb z "0"%char && is_x x
      then match rest with
           | u :: rest' =>
               if Ascii.eqb u "_"%char
               then hex_digits_value rest' 0 true
               else hex_digits_value rest 0 true
           | [] => None
           end
      else hex_digits_value cs 0 true
  | _ => hex_digits_value cs 0 true
  end.

Definition hex_signed (cs : list ascii) : option Z :=
  match cs with
  | c :: cs' =>
      if Ascii.eqb c "-"%char then option_map Z.opp (hex_unsigned cs')
      else if Ascii.eqb c "+"%char then hex_unsigned cs'
      else hex_unsigned cs
  | [] => None
  end.

(** The white space [int] skips before and after a literal: the controls
    9 to 13 and the space, and of the upper half the next-line control and
    the no-break space.  The separators 28 to 31, which [str.strip]
    removes, are not skipped. *)
Definition int_space (c : ascii) : bool :=
  let n := Z.of_nat (nat_of_ascii c) in
  ((9 <=? n) && (n <=? 13)) || (n =? 32) || (n =? 133) || (n =? 160).

Fixpoint int_lskip (cs : list ascii) : list ascii :=
  match cs with
  | c :: cs' => if int_space c then int_lskip cs' else cs
  | [] => []
  end.

Definition int_rskip (cs : list ascii) : list ascii :=
  rev (int_lskip (rev cs)).

(** [repr(s)]: the quotes are double when [s] holds a single quote and
    no double one; the quote and the backslash are escaped, tab, line
    feed and carriage return are written [\t], [\n], [\r], and the other
    code points that are not printable as [\xhh] in lower case. *)
Definition squote : ascii := ascii_of_nat 39.
Definition dquote : ascii := ascii_of_nat 34.
Definition backslash : ascii := ascii_of_nat 92.

Definition printable (c : ascii) : bool :=
  let n := Z.of_nat (nat_of_ascii c) in
  ((32 <=? n) && (n <=? 126)) || ((161 <=? n) && negb (n =? 173)).

Definition hex_digit_repr (d : Z) : ascii :=
  if d <? 10 then ascii_of_nat (Z.to_nat (48 + d))
  else ascii_of_nat (Z.to_nat (87 + d)).

Definition repr_char (quote c : ascii) : list ascii :=
  let n := Z.of_nat (nat_of_ascii c) in
  if Ascii.eqb c quote || Ascii.eqb c backslash then [backslash; c]
  else if n =? 9 then [backslash; "t"%char]
  else if n =? 10 then [backslash; "n"%char]
  else if n =? 13 then [backslash; "r"%char]
  else if printable c then [c]
  else [backslash; "x"%char; hex_digit_repr (n / 16); hex_digit_repr (n mod 16)].

Definition repr (s : string) : list ascii :=
  let cs := list_ascii_of_string s in
  let quote :=
    if existsb (Ascii.eqb squote) cs && negb (existsb (Ascii.eqb dquote) cs)
    then dquote else squote in
  quote :: flat_map (repr_char quote) cs ++ [quote].

(** [int(s, 16)]; the message of the error holds at most 200 characters
    of [repr(s)]. *)
Definition int16 (s : string) : res Z :=
  match hex_signed (int_rskip (int_lskip (list_ascii_of_string s))) with
  | Some n => Ok n
  | None =>
      Raise (ValueError ("invalid literal for int() with base 16: "
                           ++ string_of_list_ascii (firstn 200 (repr s))))
  end.

Definition hex_digit_upper (d : Z) : ascii :=
  if d <? 10 then ascii_of_nat (Z.to_nat (48 + d))
  else ascii_of_nat (Z.to_nat (55 + d)).

(** The upper-case hexadecimal digits of [n >= 0], most significant
    first, prepended to [acc]. *)
Fixpoint hex_upper_aux (fuel : nat) (n : Z) (acc : list ascii) : list ascii :=
  match fuel with
  | O => acc
  | S fuel' =>
      let acc' := hex_digit_upper (n mod 16) :: acc in
      if n <? 16 then acc' else hex_upper_aux fuel' (n / 16) acc'
  end.

Definition hex_upper (n : Z) : list ascii :=
  hex_upper_aux (S (Z.to_nat (Z.log2 n))) n [].

(** [f"{n:06X}"]: sign, then zeros up to a total width of 6, then the
    upper-case hexadecimal digits of [abs(n)]. *)
Definition format_06X (n : Z) : string :=
  let digits := hex_upper (Z.abs n) in
  let sign := if n <? 0 then ["-"%char] else [] in
  let pad := repeat "0"%char (6 - List.length sign - List.length digits)%nat in
  string_of_list_ascii (sign ++ pad ++ digits).

(** [str(n)] for an [int] [n >= 0], in decimal. *)
Definition dec_digit (d : Z) : ascii := ascii_of_nat (Z.to_nat (48 + d)).

Fixpoint dec_aux (fuel : nat) (n : Z) (acc : list ascii) : list ascii :=
  match fuel with
  | O => acc
  | S fuel' =>
      let acc' := dec_digit (n mod 10) :: acc in
      if n <? 10 then acc' else dec_aux fuel' (n / 10) acc'
  end.

Definition str_of_int (n : Z) : string :=
  let digits := dec_aux (S (Z.to_nat (Z.log2 (Z.abs n)))) (Z.abs n) [] in
  string_of_list_ascii ((if n <? 0 then ["-"%char] else []) ++ digits).

End Py.

(** ** The host framework: validators, adapter, property setters *)

Module Validators.
Import Py.

(** Modelled from the spec: [validators.truncated_range] belongs to the
    host framework, whose sources are not part of the driver.  The data
    model has the setpoint "clamped ... to [-10,10] before encoding", and
    the validator the driver names truncates: a value inside the range is
    returned as it is, a value above it becomes the upper bound, anything
    else the lower bound.  [lo] and [hi] are [min(values)] and
    [max(values)]. *)
Definition truncated_range (value : num) (lo hi : Z) : num :=
  if int_le_num lo value && num_le_int value hi then value
  else if num_gt_int value hi then PInt hi
  else PInt lo.

(** Modelled from the spec: [validators.strict_discrete_set] over the
    keys of [{True: "ON", False: "OFF"}]; both booleans are keys, so the
    value is returned. *)
Definition strict_discrete_set (value : bool) : res bool := Ok value.

End Validators.

Module Framework.
Import Py.

(** Modelled from the spec: the transport is "a transport abstraction
    providing write(line) / readline() -> line".  [sent] is every line
    written so far, oldest first; [incoming] is the lines the adapter
    will hand to the next reads, as [read()] returns them. *)
Record Adapter : Type := mkAdapter {
  sent : list string;
  incoming : list string
}.

(** Driver code runs against the adapter and may raise; what was written
    before an exception stays written. *)
Definition io (A : Type) : Type := Adapter -> res A * Adapter.

Definition ret {A} (a : A) : io A := fun t => (Ok a, t).

Definition raise {A} (e : exn) : io A := fun t => (Raise e, t).

Definition bind {A B} (m : io A) (k : A -> io B) : io B :=
  fun t =>
    match m t with
    | (Ok a, t') => k a t'
    | (Raise e, t') => (Raise e, t')
    end.

Definition lift {A} (r : res A) : io A := fun t => (r, t).

Declare Scope io_scope.
Delimit Scope io_scope with io.
Notation "x <- m ;; k" := (bind m (fun x => k))
  (at level 61, m at next level, right associativity) : io_scope.
Notation "m ;; k" := (bind m (fun _ => k))
  (at level 61, right associativity) : io_scope.

(** [self.write(command)] *)
Definition write (command : string) : io unit :=
  fun t => (Ok tt, mkAdapter (sent t ++ [command]) (incoming t)).

(** [self.read()]: the next line of the adapter; none left is a timeout. *)
Definition read : io string :=
  fun t =>
    match incoming t with
    | r :: rest => (Ok r, mkAdapter (sent t) rest)
    | [] => (Raise ReadTimeout, t)
    end.

(** [self.ask(command)] *)
Definition ask (command : string) : io string :=
  (write command ;; read)%io.

(** [Channel.insert_id] on the command ["{ch} %s" % value]. *)
Definition channel_command (ch : Z) (value : string) : string :=
  (str_of_int ch ++ " " ++ value)%string.

(** Modelled from the spec: the setter of a [Channel.control] property:
    the value goes through the validator and [set_process], the command
    is written, and then [check_set_errors] runs if the property asks
    for it.  [value] is the already validated and processed value. *)
Definition control_set (ch : Z) (value : res string)
    (check_set_errors : option (io (list string))) : io unit :=
  (v <- lift value ;;
   write (channel_command ch v) ;;
   match check_set_errors with
   | Some check => (check ;; ret tt)
   | None => ret tt
   end)%io.

End Framework.

(** ** The driver *)

Module DACChannel.
Import Py Validators Framework.

(** The literal [838860.74]: the double nearest to it. *)
Definition scale : float := S754_finite false 7205758888396718 (-33).

(** [set_process=lambda v: f"{int((v + 10) * 838860.74):06X}"] *)
Definition set_process (v : num) : res string :=
  (s <- num_add_int v 10 ;;
   p <- num_mul_float s scale ;;
   n <- int_of_float p ;;
   Ok (format_06X n))%res.

(** [cast=lambda v: float(int(v, 16) / (838860.74) - 10)] *)
Definition cast (v : string) : res float :=
  (n <- int16 v ;;
   x <- float_of_int n ;;
   ten <- float_of_int 10 ;;
   Ok (fsub (fdiv x scale) ten))%res.

(** [_from_24bit_hex]; what it prints is left out.  [val / 8388607] is
    the true division of two ints, [* 10] multiplies a float by an int. *)
Definition _from_24bit_hex (hex_str : string) : res float :=
  (val <- int16 hex_str ;;
   let val := if 0x800000 <=? val then val - 0x1000000 else val in
   q <- int_truediv val 8388607 ;;
   ten <- float_of_int 10 ;;
   Ok (fmul q ten))%res.

(** The line [check_set_errors] compares the response with. *)
Definition ack : string :=
  String "0" (String CR (String LF EmptyString)).

(** [check_set_errors] *)
Definition check_set_errors : io (list string) :=
  (response <- read ;;
   if String.eqb response ack then ret []
   else raise (RuntimeError ("Channel Error: " ++ response)))%io.

(** [check_errors]: the same body as [check_set_errors]. *)
Definition check_errors : io (list string) :=
  (response <- read ;;
   if String.eqb response ack then ret []
   else raise (RuntimeError ("Channel Error: " ++ response)))%io.

(** Setter of [voltage_setpoint]: [validator=truncated_range],
    [values=[-10, 10]], [check_set_errors=True]. *)
Definition set_voltage_setpoint (ch : Z) (v : num) : io unit :=
  control_set ch (set_process (truncated_range v (-10) 10))
    (Some check_set_errors).

(** Setter of [enabled]: [values={True: "ON", False: "OFF"}],
    [map_values=True], [check_set_errors=False]. *)
Definition set_enabled (ch : Z) (on : bool) : io unit :=
  control_set ch
    (b <- strict_discrete_set on ;; Ok (if b then "ON" else "OFF")%string)%res
    None.

End DACChannel.

Module BaspiLNHRDACII.
Import Py Framework.

(** [channels]: the ids [tuple(range(1, 13))], in creation order. *)
Definition channels : list Z := [1; 2; 3; 4; 5; 6; 7; 8; 9; 10; 11; 12].

(** [[p.strip() == "ON" for p in raw_response.split(";") if p.strip()]] *)
Definition status_parts (raw_response : string) : list bool :=
  map (fun p => String.eqb (strip p) "ON")
      (filter (fun p => str_truthy (strip p)) (split ";" raw_response)).

(** [[ch for ch, is_enabled in zip(self.channels, status_parts) if is_enabled]] *)
Definition enabled_of (parts : list bool) : list Z :=
  map fst (filter snd (zip channels parts)).

(** [enabled_channels] *)
Definition enabled_channels : io (list Z) :=
  (raw_response <- ask "ALL S?" ;;
   ret (enabled_of (status_parts raw_response)))%io.

(** The body of the loop of [disable_all], over the channels still to do. *)
Fixpoint disable_each (chs : list Z) : io unit :=
  match chs with
  | [] => ret tt
  | ch :: rest =>
      (DACChannel.set_voltage_setpoint ch (PInt 0) ;;
       DACChannel.set_enabled ch false ;;
       disable_each rest)%io
  end.

(** [disable_all] *)
Definition disable_all : io unit :=
  (chs <- enabled_channels ;; disable_each chs)%io.

(** [shutdown]; [super_shutdown] stands for [super().shutdown()], the
    method of the framework's [Instrument]. *)
Definition shutdown (super_shutdown : io unit) : io unit :=
  (disable_all ;; super_shutdown)%io.

End BaspiLNHRDACII.

(** * Vocabulary of the properties *)

Import Py Validators Framework.

(** ** Hexadecimal digits *)

Definition hex_digit_lower (d : Z) : ascii :=
  if d <? 10 then ascii_of_nat (Z.to_nat (48 + d))
  else ascii_of_nat (Z.to_nat (87 + d)).

(** The character [c] writes the digit [d], in either case. *)
Definition spells (c : ascii) (d : Z) : Prop :=
  0 <= d < 16 /\ (c = hex_digit_upper d \/ c = hex_digit_lower d).

(** The value of a sequence of base-16 digits, most significant first. *)
Definition digits_value (ds : list Z) : Z :=
  fold_left (fun acc d => 16 * acc + d) ds 0.

Definition is_upper_hex (c : ascii) : bool :=
  let n := Z.of_nat (nat_of_ascii c) in
  ((48 <=? n) && (n <=? 57)) || ((65 <=? n) && (n <=? 70)).


(** The six base-16 digits of [n], most significant first. *)
Definition hex6 (n : Z) : list Z :=
  [n / 16 / 16 / 16 / 16 / 16 mod 16; n / 16 / 16 / 16 / 16 mod 16;
   n / 16 / 16 / 16 mod 16; n / 16 / 16 mod 16; n / 16 mod 16; n mod 16].

(** A wire code: exactly six upper-case hexadecimal digits. *)
Definition is_wire_code (s : string) : bool :=
  let cs := list_ascii_of_string s in
  (List.length cs =? 6)%nat && forallb is_upper_hex cs.

(** ** Setpoints and status fields *)

(** [min(values) <= value <= max(values)] for [values=[-10, 10]]. *)
Definition in_range (v : num) : bool :=
  int_le_num (-10) v && num_le_int v 10.

(** The real number a setpoint stands for. *)
Definition num_value (v : num) : Q :=
  match v with
  | PInt n => inject_Z n
  | PFloat x => F2Q x
  end.

(** A setpoint Python can hold: any [int], or a binary64 float. *)
Definition valid_num (v : num) : bool :=
  match v with
  | PInt _ => true
  | PFloat x => valid_binary prec emax x
  end.

(** A field of the bulk status that survives [if p.strip()]. *)
Definition nonblank (p : string) : bool := str_truthy (strip p).

(** The flag a field stands for. *)
Definition is_on (p : string) : bool := String.eqb (strip p) "ON".

(** The reading of the bulk status in which every field, blank or not,
    belongs to the channel at its position. *)
Definition enabled_positional (raw_response : string) : list Z :=
  BaspiLNHRDACII.enabled_of (map is_on (split ";" raw_response)).

(** What [disable_all] writes for the channels [chs] when every
    handshake is accepted. *)
Definition disable_commands (chs : list Z) : list string :=
  flat_map (fun ch => [channel_command ch "7FFFFF"; channel_command ch "OFF"]) chs.

(** The bulk status of the protocol tests: channels 1 and 2 on. *)
Definition status_1_2 : string :=
  "ON;ON;OFF;OFF;OFF;OFF;OFF;OFF;OFF;OFF;OFF;OFF".

(** What a set command with handshake returns when the line [r] is read
    back. *)
Definition handshake_result (r : string) : res unit :=
  if String.eqb r DACChannel.ack then Ok tt
  else Raise (RuntimeError ("Channel Error: " ++ r)).

(** ** Rounding to binary64 *)

(** The shift record [mrs] locates the real [N / W]: its mantissa is the
    integer part, and its round and sticky bits say where the fraction
    lies with respect to one half. *)
Definition located (N W : Z) (mrs : shr_record) : Prop :=
  let R := N - shr_m mrs * W in
  0 < W /\ 0 <= shr_m mrs /\ 0 <= R < W /\
  shr_r mrs = (W <=? 2 * R) /\
  shr_s mrs = negb (if W <=? 2 * R then 2 * R =? W else R =? 0).

(** The float [f] is the rounded value [m1 * 2 ^ e1] with the sign [sx]. *)
Definition represents (sx : bool) (m1 e1 : Z) (f : float) : Prop :=
  (m1 = 0 /\ f = S754_zero sx) \/
  (exists m e, f = S754_finite sx m e /\ e1 <= e /\ Zpos m * 2 ^ (e - e1) = m1).

(** A float that is zero or a positive finite number. *)
Definition is_nonneg (f : float) : bool :=
  match f with
  | S754_zero _ => true
  | S754_finite s _ _ => negb s
  | _ => false
  end.

(** * Properties *)

(** ** Hexadecimal digits: parsing *)

Ltac digit_cases d :=
  let H := fresh "H" in
  assert (H : d = 0 \/ d = 1 \/ d = 2 \/ d = 3 \/ d = 4 \/ d = 5 \/ d = 6 \/
              d = 7 \/ d = 8 \/ d = 9 \/ d = 10 \/ d = 11 \/ d = 12 \/
              d = 13 \/ d = 14 \/ d = 15) by lia;
  repeat (destruct H as [H | H]; [subst d | ]); [ .. | subst d].

Lemma spells_value c d : spells c d -> hex_digit_value c = Some d.
Proof.
  intros [Hd [-> | ->]]; digit_cases d; reflexivity.
Qed.

Lemma spells_plain c d :
  spells c d ->
  isspace c = false /\ Ascii.eqb c "_" = false /\ Ascii.eqb c "-" = false /\
  Ascii.eqb c "+" = false /\ is_x c = false.
Proof.
  intros [Hd [-> | ->]]; digit_cases d; repeat split; reflexivity.
Qed.

Lemma hex_digit_upper_spells d : 0 <= d < 16 -> spells (hex_digit_upper d) d.
Proof. intros Hd; split; [exact Hd | now left]. Qed.

Lemma hex_digit_upper_is_upper d :
  0 <= d < 16 -> is_upper_hex (hex_digit_upper d) = true.
Proof. intros Hd; digit_cases d; reflexivity. Qed.

Lemma fold_digits_bound ds : forall acc k,
  0 <= acc < 16 ^ k -> 0 <= k ->
  Forall (fun d => 0 <= d < 16) ds ->
  0 <= fold_left (fun a d => 16 * a + d) ds acc < 16 ^ (k + Z.of_nat (List.length ds)).
Proof.
  induction ds as [| d ds IH]; intros acc k Hacc Hk Hds; simpl List.length.
  - simpl. now rewrite Z.add_0_r.
  - inversion Hds as [| ? ? Hd Hds']; subst. cbn [fold_left].
    replace (k + Z.of_nat (S (List.length ds)))
      with ((k + 1) + Z.of_nat (List.length ds)) by lia.
    apply IH; [ | lia | assumption].
    rewrite Z.pow_add_r by lia. change (16 ^ 1) with 16. lia.
Qed.

Lemma digits_value_bound ds :
  Forall (fun d => 0 <= d < 16) ds -> (List.length ds <= 6)%nat ->
  0 <= digits_value ds < 2 ^ 24.
Proof.
  intros Hds Hlen.
  pose proof (fold_digits_bound ds 0 0 ltac:(simpl; lia) ltac:(lia) Hds) as H.
  unfold digits_value. split; [apply H |].
  eapply Z.lt_le_trans; [apply H |].
  change (2 ^ 24) with (16 ^ 6).
  apply Z.pow_le_mono_r; lia.
Qed.

Lemma Forall2_spells_digits cs ds :
  Forall2 spells cs ds -> Forall (fun d => 0 <= d < 16) ds.
Proof.
  induction 1 as [| c d cs ds [Hd _] _ IH]; constructor; assumption.
Qed.

Lemma hex_digits_value_spelled cs ds :
  Forall2 spells cs ds -> forall acc b,
  cs <> [] \/ b = false ->
  hex_digits_value cs acc b = Some (fold_left (fun a d => 16 * a + d) ds acc).
Proof.
  induction 1 as [| c d cs ds Hc _ IH]; intros acc b Hb.
  - destruct Hb as [Hb | ->]; [contradiction | reflexivity].
  - cbn [hex_digits_value fold_left]. destruct (spells_plain c d Hc) as (_ & -> & _).
    rewrite (spells_value c d Hc). apply IH. now right.
Qed.

Lemma spells_not_space c d : spells c d -> int_space c = false.
Proof.
  intros [Hd [-> | ->]]; digit_cases d; reflexivity.
Qed.

Lemma int_lskip_plain c cs :
  int_space c = false -> int_lskip (c :: cs) = c :: cs.
Proof. intros H; simpl; now rewrite H. Qed.

Lemma int_rskip_spelled cs ds : Forall2 spells cs ds -> int_rskip cs = cs.
Proof.
  intros H. unfold int_rskip.
  destruct (rev cs) as [| c cs'] eqn:E.
  - apply (f_equal (@rev ascii)) in E. rewrite rev_involutive in E.
    now subst.
  - assert (Hin : In c cs) by (apply in_rev; rewrite E; now left).
    assert (Hsp : int_space c = false).
    { clear E. induction H as [| c0 d0 cs0 ds0 Hc _ IH]; [destruct Hin |].
      destruct Hin as [-> | Hin];
        [apply (spells_not_space _ _ Hc) | now apply IH]. }
    rewrite int_lskip_plain by exact Hsp.
    rewrite <- E. apply rev_involutive.
Qed.

(** [int(s, 16)] on a non-empty string of hexadecimal digits, in either
    case, is the base-16 value of the digits. *)
Lemma int16_spelled cs ds :
  Forall2 spells cs ds -> cs <> [] ->
  int16 (string_of_list_ascii cs) = Ok (digits_value ds).
Proof.
  intros H Hne. unfold int16.
  rewrite list_ascii_of_string_of_list_ascii.
  destruct cs as [| c cs]; [contradiction |].
  inversion H as [| ? d ? ds' Hc Hcs]; subst.
  destruct (spells_plain c d Hc) as (_ & Hus & Hm & Hp & Hx).
  rewrite int_lskip_plain by exact (spells_not_space c d Hc).
  rewrite (int_rskip_spelled _ _ H).
  unfold hex_signed. rewrite Hm, Hp.
  assert (Hv : hex_digits_value (c :: cs) 0 true = Some (digits_value (d :: ds'))).
  { apply hex_digits_value_spelled; [exact H | left; discriminate]. }
  unfold hex_unsigned.
  destruct cs as [| x rest]; [now rewrite Hv |].
  inversion Hcs as [| ? dx ? ? Hxs _]; subst.
  destruct (spells_plain x dx Hxs) as (_ & _ & _ & _ & Hxx).
  rewrite Hxx, andb_false_r. now rewrite Hv.
Qed.

(** ** Hexadecimal digits: formatting *)

Lemma hex_upper_aux_fuel f1 : forall n acc f2 f3,
  0 <= n < 16 ^ Z.of_nat (S f1) -> (S f1 <= f2)%nat -> (S f1 <= f3)%nat ->
  hex_upper_aux f2 n acc = hex_upper_aux f3 n acc.
Proof.
  induction f1 as [| f1 IH]; intros n acc f2 f3 Hn H2 H3;
    destruct f2 as [| f2]; try lia; destruct f3 as [| f3]; try lia;
    cbn [hex_upper_aux].
  - change (16 ^ Z.of_nat 1) with 16 in Hn.
    destruct (Z.ltb_spec n 16); [reflexivity | lia].
  - destruct (Z.ltb_spec n 16) as [Hlt | Hge]; [reflexivity |].
    apply IH; try lia.
    split; [apply Z.div_pos; lia |].
    apply Z.div_lt_upper_bound; [lia |].
    replace (Z.of_nat (S (S f1))) with (1 + Z.of_nat (S f1)) in Hn by lia.
    rewrite Z.pow_add_r in Hn by lia. exact (proj2 Hn).
Qed.

Lemma hex_upper_six n :
  0 <= n < 2 ^ 24 -> hex_upper n = hex_upper_aux 6 n [].
Proof.
  intros Hn. unfold hex_upper.
  set (k := Z.to_nat (Z.log2 n)).
  assert (Hk : 0 <= n < 16 ^ Z.of_nat (S k)).
  { split; [lia |].
    destruct (Z.eq_dec n 0) as [-> | Hnz]; [apply Z.pow_pos_nonneg; lia |].
    pose proof (Z.log2_spec n ltac:(lia)) as [_ Hlog].
    pose proof (Z.log2_nonneg n) as Hl0.
    eapply Z.lt_le_trans; [exact Hlog |].
    change 16 with (2 ^ 4). rewrite <- Z.pow_mul_r by lia.
    apply Z.pow_le_mono_r; [lia |]. unfold k. lia. }
  transitivity (hex_upper_aux (S k + 6) n []).
  - apply (hex_upper_aux_fuel k); [exact Hk | lia | lia].
  - apply (hex_upper_aux_fuel 5); [exact Hn | lia | lia].
Qed.

Lemma div16_small n : 0 <= n < 16 -> n / 16 = 0.
Proof. intros; apply Z.div_small; lia. Qed.

(** [f"{n:06X}"] of a 24-bit [n] is its six digits. *)
Lemma format_06X_hex6 n :
  0 <= n < 2 ^ 24 ->
  format_06X n = string_of_list_ascii (map hex_digit_upper (hex6 n)).
Proof.
  intros Hn. unfold format_06X.
  destruct (Z.ltb_spec n 0) as [? | _]; [lia |].
  rewrite Z.abs_eq by lia. rewrite (hex_upper_six n Hn).
  f_equal. unfold hex6. cbn [hex_upper_aux map].
  assert (H0 : forall m, 0 <= m -> 0 <= m / 16) by (intros; apply Z.div_pos; lia).
  repeat match goal with
  | |- context [?m <? 16] =>
      destruct (Z.ltb_spec m 16) as [? | ?];
        [ repeat (rewrite (div16_small m) by (split; [auto 10 using H0 with zarith | assumption]);
                  rewrite ?Zdiv_0_l, ?Zmod_0_l);
          reflexivity
        | ]
  end.
  exfalso.
  assert (n / 16 / 16 / 16 / 16 / 16 < 16); [| lia].
  repeat (apply Z.div_lt_upper_bound; [lia |]). change (2 ^ 24) with 16777216 in Hn. lia.
Qed.

Lemma hex6_range n : Forall (fun d => 0 <= d < 16) (hex6 n).
Proof.
  unfold hex6. repeat constructor; apply Z.mod_pos_bound; lia.
Qed.

Lemma hex6_value n : 0 <= n < 2 ^ 24 -> digits_value (hex6 n) = n.
Proof.
  intros Hn. unfold digits_value, hex6. cbn [fold_left].
  assert (n / 16 / 16 / 16 / 16 / 16 / 16 = 0).
  { apply Z.div_small. split.
    - repeat (apply Z.div_pos; [| lia]). lia.
    - repeat (apply Z.div_lt_upper_bound; [lia |]).
      change (2 ^ 24) with 16777216 in Hn. lia. }
  pose proof (Z.div_mod n 16 ltac:(lia)).
  pose proof (Z.div_mod (n / 16) 16 ltac:(lia)).
  pose proof (Z.div_mod (n / 16 / 16) 16 ltac:(lia)).
  pose proof (Z.div_mod (n / 16 / 16 / 16) 16 ltac:(lia)).
  pose proof (Z.div_mod (n / 16 / 16 / 16 / 16) 16 ltac:(lia)).
  pose proof (Z.div_mod (n / 16 / 16 / 16 / 16 / 16) 16 ltac:(lia)).
  lia.
Qed.

Lemma Forall2_spells_upper ds :
  Forall (fun d => 0 <= d < 16) ds ->
  Forall2 spells (map hex_digit_upper ds) ds.
Proof.
  induction 1; constructor; [now apply hex_digit_upper_spells | assumption].
Qed.

(** The format [06X] of a 24-bit value is a wire code, and [int(_, 16)]
    reads the value back. *)
Lemma format_06X_wire_code n :
  0 <= n < 2 ^ 24 ->
  is_wire_code (format_06X n) = true /\ int16 (format_06X n) = Ok n.
Proof.
  intros Hn. rewrite (format_06X_hex6 n Hn). split.
  - unfold is_wire_code. rewrite list_ascii_of_string_of_list_ascii.
    pose proof (hex6_range n) as Hr. unfold hex6 in *.
    cbn [map List.length forallb Nat.eqb andb].
    repeat match goal with
    | H : Forall _ (_ :: _) |- _ =>
        let Hd := fresh in let Ht := fresh in
        inversion H as [| ? ? Hd Ht]; clear H; subst;
        rewrite (hex_digit_upper_is_upper _ Hd)
    end.
    reflexivity.
  - rewrite <- (hex6_value n Hn) at 2.
    apply int16_spelled.
    + apply Forall2_spells_upper, hex6_range.
    + discriminate.
Qed.

(** ** The handshake of set commands *)

Lemma read_next t r rest :
  incoming t = r :: rest -> read t = (Ok r, mkAdapter (sent t) rest).
Proof. intros H. unfold read. now rewrite H. Qed.

(** [check_set_errors] reads one line and accepts exactly the line
    ["0\r\n"]; any other line raises [RuntimeError] with the line in its
    message. *)
Lemma check_set_errors_spec t r rest :
  incoming t = r :: rest ->
  (r = DACChannel.ack ->
   DACChannel.check_set_errors t = (Ok [], mkAdapter (sent t) rest)) /\
  (r <> DACChannel.ack ->
   DACChannel.check_set_errors t =
   (Raise (RuntimeError ("Channel Error: " ++ r)), mkAdapter (sent t) rest)).
Proof.
  intros H. unfold DACChannel.check_set_errors, bind.
  rewrite (read_next t r rest H).
  destruct (String.eqb_spec r DACChannel.ack) as [-> | Hne]; split; intros H';
    try reflexivity; congruence.
Qed.

(** C1. A set-voltage command whose handshake line is ["0"], the
    response with its line termination stripped, as the protocol tests
    give it: the command is written, one line is read, and the driver
    raises [RuntimeError] with the response in its message, because
    [check_set_errors] compares the line with ["0\r\n"].  (The line
    ["0\r\n"] itself is accepted.) *)
Theorem handshake_rejects_stripped_zero :
  DACChannel.set_voltage_setpoint 1 (PFloat (S754_zero false))
    (mkAdapter [] ["0"%string])
  = (Raise (RuntimeError "Channel Error: 0"), mkAdapter ["1 7FFFFF"%string] [])
  /\
  DACChannel.set_voltage_setpoint 1 (PFloat (S754_zero false))
    (mkAdapter [] [DACChannel.ack])
  = (Ok tt, mkAdapter ["1 7FFFFF"%string] []).
Proof. split; vm_compute; reflexivity. Qed.

(** ** The setter of [voltage_setpoint] *)

Lemma control_set_checked ch code t r rest :
  incoming t = r :: rest ->
  control_set ch (Ok code) (Some DACChannel.check_set_errors) t
  = (handshake_result r, mkAdapter (sent t ++ [channel_command ch code]) rest).
Proof.
  intros H. unfold control_set, bind, lift, write, handshake_result.
  set (t' := mkAdapter (sent t ++ [channel_command ch code]) (incoming t)).
  assert (H' : incoming t' = r :: rest) by exact H.
  destruct (check_set_errors_spec t' r rest H') as [Hok Hko].
  destruct (String.eqb_spec r DACChannel.ack) as [Heq | Hne].
  - rewrite (Hok Heq). reflexivity.
  - rewrite (Hko Hne). reflexivity.
Qed.

Lemma set_process_ten : DACChannel.set_process (PInt 10) = Ok "FFFFFE"%string.
Proof. vm_compute. reflexivity. Qed.

Lemma set_process_minus_ten :
  DACChannel.set_process (PInt (-10)) = Ok "000000"%string.
Proof. vm_compute. reflexivity. Qed.

Lemma set_process_zero : DACChannel.set_process (PInt 0) = Ok "7FFFFF"%string.
Proof. vm_compute. reflexivity. Qed.

(** ** The bulk status: [split], [strip] and the pairing with channels *)

Lemma list_ascii_of_string_app a b :
  list_ascii_of_string (a ++ b) = list_ascii_of_string a ++ list_ascii_of_string b.
Proof.
  induction a as [| c a IH]; [reflexivity |].
  cbn. now rewrite IH.
Qed.

Lemma split_chars_app sep a : forall b cur,
  split_chars sep (a ++ sep :: b) cur
  = split_chars sep a cur ++ split_chars sep b [].
Proof.
  induction a as [| c a IH]; intros b cur; cbn [split_chars app].
  - now rewrite Ascii.eqb_refl.
  - destruct (Ascii.eqb c sep); [cbn; f_equal |]; apply IH.
Qed.

(** The fields of [a;b] are the fields of [a], then the fields of [b]. *)
Lemma split_sep a b :
  split ";" (a ++ String ";" b) = split ";" a ++ split ";" b.
Proof.
  unfold split. rewrite list_ascii_of_string_app. cbn [list_ascii_of_string].
  apply split_chars_app.
Qed.

Lemma split_chars_no_sep sep cs : forall cur,
  Forall (fun c => Ascii.eqb c sep = false) cs ->
  split_chars sep cs cur = [string_of_list_ascii (rev cur ++ cs)].
Proof.
  induction cs as [| c cs IH]; intros cur H; cbn [split_chars].
  - now rewrite app_nil_r.
  - inversion H as [| ? ? Hc Hcs]; subst. rewrite Hc, (IH _ Hcs).
    cbn [rev]. now rewrite <- app_assoc.
Qed.

Lemma isspace_not_semicolon c : isspace c = true -> Ascii.eqb c ";" = false.
Proof.
  intros H. destruct (Ascii.eqb_spec c ";"%char) as [-> | _]; [| reflexivity].
  discriminate H.
Qed.

Lemma lstrip_spaces cs : forallb isspace cs = true -> lstrip cs = [].
Proof.
  induction cs as [| c cs IH]; [reflexivity |].
  cbn. intros H. apply andb_prop in H as [-> H]. now apply IH.
Qed.

(** A field of white space only is one field, and a blank one. *)
Lemma whitespace_field w :
  forallb isspace (list_ascii_of_string w) = true ->
  split ";" w = [w] /\ nonblank w = false /\ is_on w = false.
Proof.
  intros H. split; [| split].
  - unfold split. rewrite split_chars_no_sep.
    + cbn. now rewrite string_of_list_ascii_of_string.
    + rewrite forallb_forall in H. apply Forall_forall.
      intros c Hc. apply isspace_not_semicolon. now apply H.
  - unfold nonblank, strip. now rewrite (lstrip_spaces _ H).
  - unfold is_on, strip. now rewrite (lstrip_spaces _ H).
Qed.

Lemma status_parts_sep a b :
  BaspiLNHRDACII.status_parts (a ++ String ";" b)
  = BaspiLNHRDACII.status_parts a ++ BaspiLNHRDACII.status_parts b.
Proof.
  unfold BaspiLNHRDACII.status_parts.
  now rewrite split_sep, filter_app, map_app.
Qed.

Lemma status_parts_whitespace w :
  forallb isspace (list_ascii_of_string w) = true ->
  BaspiLNHRDACII.status_parts w = [].
Proof.
  intros H. destruct (whitespace_field w H) as (Hs & Hb & _).
  unfold BaspiLNHRDACII.status_parts. rewrite Hs. cbn [filter].
  fold (nonblank w). now rewrite Hb.
Qed.

Lemma filter_all {A} (f : A -> bool) l : forallb f l = true -> filter f l = l.
Proof.
  induction l as [| x l IH]; [reflexivity |].
  cbn. intros H. apply andb_prop in H as [-> H]. now rewrite IH.
Qed.

(** *** Which channels come out of the pairing *)

Lemma In_enabled {A} (xs : list A) : forall bs x,
  In x (map fst (filter snd (zip xs bs))) <->
  exists k, nth_error xs k = Some x /\ nth_error bs k = Some true.
Proof.
  induction xs as [| y xs IH]; intros bs x.
  - cbn. split; [contradiction |]. intros (k & H & _). now destruct k.
  - destruct bs as [| b bs].
    + cbn. split; [contradiction |]. intros (k & _ & H). now destruct k.
    + cbn [zip filter snd]. split.
      * intros H.
        assert (Hc : (b = true /\ x = y) \/
                     In x (map fst (filter snd (zip xs bs)))).
        { destruct b; cbn in H; [destruct H as [<- | H] |]; auto. }
        destruct Hc as [[-> ->] | Hc]; [exists O; now split |].
        apply IH in Hc as (k & H1 & H2). exists (S k). now split.
      * intros (k & H1 & H2). destruct k as [| k]; cbn in H1, H2.
        -- inversion H1; inversion H2; subst. now left.
        -- assert (Hc : In x (map fst (filter snd (zip xs bs))))
             by (apply IH; now exists k).
           destruct b; [now right | exact Hc].
Qed.

Lemma enabled_sub {A} (xs : list A) bs x :
  In x (map fst (filter snd (zip xs bs))) -> In x xs.
Proof.
  intros H. apply In_enabled in H as (k & H & _).
  eapply nth_error_In; eassumption.
Qed.

Lemma enabled_sorted {A} (R : A -> A -> Prop) (xs : list A) : forall bs,
  StronglySorted R xs ->
  StronglySorted R (map fst (filter snd (zip xs bs))).
Proof.
  induction xs as [| y xs IH]; intros bs H; [constructor |].
  destruct bs as [| b bs]; [constructor |].
  inversion H as [| ? ? Hs Hf]; subst.
  cbn [zip filter snd].
  destruct b; cbn [map fst]; [| now apply IH].
  constructor; [now apply IH |].
  apply Forall_forall. intros x Hx.
  rewrite Forall_forall in Hf. apply Hf. eapply enabled_sub; eassumption.
Qed.

Lemma channels_sorted : StronglySorted Z.lt BaspiLNHRDACII.channels.
Proof.
  unfold BaspiLNHRDACII.channels.
  repeat (constructor; [| repeat (constructor; try lia)]). constructor.
Qed.

Lemma channels_nth k ch :
  nth_error BaspiLNHRDACII.channels k = Some ch <->
  ch = Z.of_nat k + 1 /\ (k < 12)%nat.
Proof.
  unfold BaspiLNHRDACII.channels.
  do 12 (destruct k as [| k];
         [cbn; split; [intros H; inversion H; split; lia
                      | intros [-> _]; reflexivity] |]).
  destruct k; cbn; (split; [discriminate | lia]).
Qed.

Lemma enabled_channels_run t r rest :
  incoming t = r :: rest ->
  BaspiLNHRDACII.enabled_channels t
  = (Ok (BaspiLNHRDACII.enabled_of (BaspiLNHRDACII.status_parts r)),
     mkAdapter (sent t ++ ["ALL S?"%string]) rest).
Proof.
  intros H. unfold BaspiLNHRDACII.enabled_channels, ask, bind, write, ret.
  set (t' := mkAdapter (sent t ++ ["ALL S?"%string]) (incoming t)).
  assert (H' : incoming t' = r :: rest) by exact H.
  now rewrite (read_next t' r rest H').
Qed.

(** C7, counterexample.  On the response ["ON;;ON"] the third field is
    [ON], and channel 2 is returned, not channel 3: the blank second
    field is not paired with channel 2. *)
Lemma blank_field_breaks_alignment :
  BaspiLNHRDACII.enabled_channels (mkAdapter [] ["ON;;ON"%string])
  = (Ok [1; 2], mkAdapter ["ALL S?"%string] []) /\
  enabled_positional "ON;;ON" = [1; 3] /\
  fst (BaspiLNHRDACII.enabled_channels (mkAdapter [] ["ON;;ON"%string]))
  <> Ok (enabled_positional "ON;;ON").
Proof.
  split; [vm_compute; reflexivity |]. split; [vm_compute; reflexivity |].
  vm_compute. discriminate.
Qed.

(** C7, as amended.  [enabled_channels] writes ["ALL S?"], reads one
    line, splits it on [;], drops the fields that are empty once
    stripped, and pairs the remaining fields in order with the channels
    1..12: channel [k + 1] is returned exactly when the [k]-th remaining
    field is [ON] once stripped, the channels come out in ascending
    order, and channels beyond the last remaining field are not returned.
    On the status of the protocol tests the result is [[1; 2]]. *)
Theorem enabled_channels_spec t r rest :
  incoming t = r :: rest ->
  exists chs,
    BaspiLNHRDACII.enabled_channels t
    = (Ok chs, mkAdapter (sent t ++ ["ALL S?"%string]) rest) /\
    StronglySorted Z.lt chs /\
    (forall ch, In ch chs <->
       exists k p, ch = Z.of_nat k + 1 /\ (k < 12)%nat /\
         nth_error (filter nonblank (split ";" r)) k = Some p /\
         strip p = "ON"%string) /\
    (r = status_1_2 -> chs = [1; 2]).
Proof.
  intros H. eexists. split; [apply (enabled_channels_run t r rest H) |].
  split; [apply enabled_sorted, channels_sorted |]. split.
  - intros ch. unfold BaspiLNHRDACII.enabled_of. rewrite In_enabled.
    unfold BaspiLNHRDACII.status_parts. fold nonblank. split.
    + intros (k & Hk & Hb). apply channels_nth in Hk as [-> Hlt].
      rewrite nth_error_map in Hb.
      destruct (nth_error (filter nonblank (split ";" r)) k) as [p |] eqn:Hp;
        [| discriminate].
      exists k, p. repeat split; try assumption.
      cbn [option_map] in Hb. injection Hb as Hon. now apply String.eqb_eq.
    + intros (k & p & -> & Hlt & Hp & Hon). exists k. split.
      * now apply channels_nth.
      * rewrite nth_error_map, Hp. cbn [option_map]. f_equal. now apply String.eqb_eq.
  - intros ->. vm_compute. reflexivity.
Qed.

Lemma enabled_channels_spec_witness :
  exists chs,
    BaspiLNHRDACII.enabled_channels (mkAdapter [] [status_1_2])
    = (Ok chs, mkAdapter ["ALL S?"%string] []) /\ chs = [1; 2].
Proof.
  destruct (enabled_channels_spec (mkAdapter [] [status_1_2]) status_1_2 []
              eq_refl) as (chs & Hrun & _ & _ & Hex).
  exists chs. split; [exact Hrun | exact (Hex eq_refl)].
Defined.

(** C10.  A field of the bulk status that is empty or white space is
    dropped before the pairing: the flags of the fields behind it follow
    directly the flags of the fields before it, where the positions in the
    response have one more slot; nothing is raised; and a response all of
    whose fields are non-blank is paired by position. *)
Theorem blank_fields_are_dropped a w b t r rest :
  forallb isspace (list_ascii_of_string w) = true ->
  incoming t = r :: rest ->
  BaspiLNHRDACII.status_parts (a ++ String ";" (w ++ String ";" b))
  = BaspiLNHRDACII.status_parts a ++ BaspiLNHRDACII.status_parts b /\
  map is_on (split ";" (a ++ String ";" (w ++ String ";" b)))
  = map is_on (split ";" a) ++ false :: map is_on (split ";" b) /\
  (exists chs, fst (BaspiLNHRDACII.enabled_channels t) = Ok chs) /\
  (forallb nonblank (split ";" r) = true ->
   fst (BaspiLNHRDACII.enabled_channels t) = Ok (enabled_positional r)).
Proof.
  intros Hw H. destruct (whitespace_field w Hw) as (Hs & _ & Hoff).
  rewrite (enabled_channels_run t r rest H). cbn [fst].
  split; [| split; [| split]].
  - now rewrite !status_parts_sep, (status_parts_whitespace w Hw).
  - rewrite !split_sep, Hs, !map_app. cbn [map app]. now rewrite Hoff.
  - eexists. reflexivity.
  - intros Hall. unfold enabled_positional, BaspiLNHRDACII.status_parts.
    fold nonblank. fold is_on.
    change (fun p : string => (strip p =? "ON")%string) with is_on.
    now rewrite (filter_all _ _ Hall).
Qed.

Lemma blank_fields_are_dropped_witness :
  BaspiLNHRDACII.status_parts "ON; ;OFF;ON"
  = BaspiLNHRDACII.status_parts "ON" ++ BaspiLNHRDACII.status_parts "OFF;ON" /\
  fst (BaspiLNHRDACII.enabled_channels (mkAdapter [] ["ON; ;OFF;ON"%string]))
  = Ok [1; 3] /\
  enabled_positional "ON; ;OFF;ON" = [1; 4].
Proof.
  split; [| split; vm_compute; reflexivity].
  exact (proj1 (blank_fields_are_dropped "ON" " " "OFF;ON"
                  (mkAdapter [] ["ON"%string]) "ON" [] eq_refl eq_refl)).
Defined.

(** ** Rounding to nearest even, as [binary_round_aux] does it *)

Lemma fexp_eq e : fexp prec emax e = Z.max (e - 53) (-1074).
Proof. reflexivity. Qed.

Lemma digits2_pos_spec p :
  2 ^ (Zpos (digits2_pos p) - 1) <= Zpos p < 2 ^ Zpos (digits2_pos p).
Proof.
  induction p as [p IH | p IH |]; cbn [digits2_pos].
  - rewrite Pos2Z.inj_succ.
    replace (Z.succ (Zpos (digits2_pos p)) - 1)
      with (1 + (Zpos (digits2_pos p) - 1)) by lia.
    rewrite Z.pow_succ_r, Z.pow_add_r by lia. change (2 ^ 1) with 2. lia.
  - rewrite Pos2Z.inj_succ.
    replace (Z.succ (Zpos (digits2_pos p)) - 1)
      with (1 + (Zpos (digits2_pos p) - 1)) by lia.
    rewrite Z.pow_succ_r, Z.pow_add_r by lia. change (2 ^ 1) with 2. lia.
  - cbn. lia.
Qed.

Lemma located_shr_1 N W mrs :
  located N W mrs -> located N (2 * W) (shr_1 mrs).
Proof.
  unfold located. destruct mrs as [m r s]. cbn [shr_m shr_r shr_s].
  intros (HW & Hm & HR & Hr & Hs).
  destruct m as [| p | p]; [| | lia].
  - cbn [shr_1 shr_m shr_r shr_s]. subst r s.
    repeat split; try lia;
    repeat match goal with
    | |- context [?a <=? ?b] => destruct (Z.leb_spec a b)
    | |- context [?a =? ?b] => destruct (Z.eqb_spec a b)
    end; cbn [negb orb]; try reflexivity; lia.
  - destruct p as [p | p |]; cbn [shr_1 shr_m shr_r shr_s]; subst r s;
    repeat split; try lia;
    repeat match goal with
    | |- context [?a <=? ?b] => destruct (Z.leb_spec a b)
    | |- context [?a =? ?b] => destruct (Z.eqb_spec a b)
    end; cbn [negb orb]; try reflexivity; lia.
Qed.

Lemma pow2_xO p : 2 ^ Zpos p~0 = 2 ^ Zpos p * 2 ^ Zpos p.
Proof.
  replace (Zpos p~0) with (Zpos p + Zpos p) by lia. apply Z.pow_add_r; lia.
Qed.

Lemma pow2_xI p : 2 ^ Zpos p~1 = 2 * (2 ^ Zpos p * 2 ^ Zpos p).
Proof.
  replace (Zpos p~1) with (1 + (Zpos p + Zpos p)) by lia.
  rewrite Z.pow_add_r, Z.pow_add_r by lia. reflexivity.
Qed.

Lemma located_iter N p : forall mrs W,
  located N W mrs -> located N (W * 2 ^ Zpos p) (iter_pos shr_1 p mrs).
Proof.
  induction p as [p IH | p IH |]; intros mrs W H; cbn [iter_pos].
  - replace (W * 2 ^ Zpos p~1) with (2 * W * 2 ^ Zpos p * 2 ^ Zpos p)
      by (rewrite pow2_xI; ring).
    apply IH, IH, located_shr_1, H.
  - replace (W * 2 ^ Zpos p~0) with (W * 2 ^ Zpos p * 2 ^ Zpos p)
      by (rewrite pow2_xO; ring).
    apply IH, IH, H.
  - change (2 ^ 1) with 2. rewrite Z.mul_comm. now apply located_shr_1.
Qed.

(** Rounding the located value moves it by at most half a unit. *)
Lemma located_round N W mrs :
  located N W mrs ->
  let m' := round_nearest_even (shr_m mrs) (loc_of_shr_record mrs) in
  (m' = shr_m mrs \/ m' = shr_m mrs + 1) /\
  - W <= 2 * (m' * W - N) <= W.
Proof.
  unfold located. destruct mrs as [m r s]. cbn [shr_m shr_r shr_s].
  intros (HW & Hm & HR & Hr & Hs).
  destruct r, s; cbn [loc_of_shr_record round_nearest_even];
    symmetry in Hr, Hs;
    destruct (Z.leb_spec W (2 * (N - m * W))); try discriminate;
    [ | destruct (Z.eqb_spec (2 * (N - m * W)) W); try discriminate
      | | destruct (Z.eqb_spec (N - m * W) 0); try discriminate ];
    try destruct (Z.even m); split; auto; lia.
Qed.

Lemma located_exact q : 0 <= q -> located q 1 (shr_record_of_loc q loc_Exact).
Proof.
  intros Hq. unfold located. cbn [shr_record_of_loc shr_m shr_r shr_s].
  replace (q - q * 1) with 0 by lia.
  repeat split; try lia; reflexivity.
Qed.

Lemma shr_m_of_loc q l : shr_m (shr_record_of_loc q l) = q.
Proof. destruct l as [| []]; reflexivity. Qed.

Lemma Zdigits2_bound m k :
  0 <= m < 2 ^ k -> 0 <= k -> 0 <= Zdigits2 m <= k.
Proof.
  intros Hm Hk. destruct m as [| p | p]; cbn [Zdigits2]; [lia | | lia].
  pose proof (digits2_pos_spec p) as [Hlo _].
  split; [lia |].
  assert (Zpos (digits2_pos p) - 1 < k); [| lia].
  apply (Z.pow_lt_mono_r_iff 2); lia.
Qed.

Lemma Zdigits2_lt m : 0 <= m -> m < 2 ^ Zdigits2 m.
Proof.
  intros Hm. destruct m as [| p | p]; cbn [Zdigits2]; [cbn; lia | | lia].
  apply digits2_pos_spec.
Qed.

(** The second stage of [binary_round_aux]: a rounded mantissa of at most
    54 bits is renormalised without loss. *)
Lemma renormalise sx m1 e1 :
  0 <= m1 <= 2 ^ 53 -> -1074 <= e1 <= 970 ->
  represents sx m1 e1
    (let '(mrs, e) := shr_fexp prec emax m1 e1 loc_Exact in
     match shr_m mrs with
     | Z0 => S754_zero sx
     | Zpos m => if e <=? emax - prec then S754_finite sx m e else S754_infinity sx
     | Zneg _ => S754_nan
     end).
Proof.
  intros Hm He. unfold shr_fexp. rewrite fexp_eq.
  destruct (Z.eq_dec m1 (2 ^ 53)) as [-> | Hne].
  - change (Zdigits2 (2 ^ 53)) with 54.
    replace (Z.max (54 + e1 - 53) (-1074) - e1) with 1 by lia.
    cbn [shr iter_pos shr_record_of_loc]. cbn [shr_1 shr_m Z.pow Z.pow_pos Pos.iter Z.mul Pos.mul].
    destruct (Z.leb_spec (e1 + 1) (emax - prec)) as [_ | Hov];
      [| unfold emax, prec in Hov; lia].
    right. eexists _, _. split; [reflexivity |]. split; [lia |].
    replace (e1 + 1 - e1) with 1 by lia. reflexivity.
  - assert (Hd : 0 <= Zdigits2 m1 <= 53) by (apply Zdigits2_bound; lia).
    destruct (Z.max (Zdigits2 m1 + e1 - 53) (-1074) - e1) as [| p | p] eqn:Hn;
      [| lia |]; cbn [shr]; rewrite shr_m_of_loc.
    + destruct m1 as [| p | p]; [left; now split | | lia].
      destruct (Z.leb_spec e1 (emax - prec)) as [_ | Hov];
        [| unfold emax, prec in Hov; lia].
      right. exists p, e1. rewrite Z.sub_diag. repeat split; lia.
    + destruct m1 as [| p0 | p0]; [left; now split | | lia].
      destruct (Z.leb_spec e1 (emax - prec)) as [_ | Hov];
        [| unfold emax, prec in Hov; lia].
      right. exists p0, e1. rewrite Z.sub_diag. repeat split; lia.
Qed.

Lemma shr_fexp_located q E lx N D n :
  located N D (shr_record_of_loc q lx) ->
  n = fexp prec emax (Zdigits2 q + E) - E -> 0 <= n ->
  exists mrs, shr_fexp prec emax q E lx = (mrs, E + n) /\
              located N (D * 2 ^ n) mrs.
Proof.
  intros Hloc Hn Hn0. unfold shr_fexp. rewrite <- Hn.
  destruct n as [| p | p]; [| | lia]; cbn [shr].
  - exists (shr_record_of_loc q lx). split; [f_equal; lia |].
    rewrite Z.mul_1_r. exact Hloc.
  - eexists. split; [reflexivity |]. now apply located_iter.
Qed.

(** [binary_round_aux] on a located value whose mantissa is at least as
    fine as the format asks: the result is the located value rounded to
    the exponent [fexp (digits + E)], within half a unit of it. *)
Lemma binary_round_aux_located sx q E lx N D :
  located N D (shr_record_of_loc q lx) ->
  let e1 := fexp prec emax (Zdigits2 q + E) in
  E <= e1 -> e1 <= 970 ->
  exists m1, 0 <= m1 /\
    - (D * 2 ^ (e1 - E)) <= 2 * (m1 * (D * 2 ^ (e1 - E)) - N) <= D * 2 ^ (e1 - E) /\
    represents sx m1 e1 (binary_round_aux prec emax sx q E lx).
Proof.
  intros Hloc e1 Hn He1.
  assert (Hq : 0 <= q /\ 0 < D /\ 0 <= N - q * D < D).
  { destruct Hloc as (? & ? & ? & _). rewrite shr_m_of_loc in *. auto. }
  destruct Hq as (Hq & HD & HR).
  assert (Hemin : -1074 <= e1) by (unfold e1; rewrite fexp_eq; lia).
  assert (Hdq : q < 2 ^ (e1 - E + 53)).
  { eapply Z.lt_le_trans; [apply Zdigits2_lt, Hq |].
    apply Z.pow_le_mono_r; [lia |]. unfold e1. rewrite fexp_eq. lia. }
  destruct (shr_fexp_located q E lx N D (e1 - E) Hloc eq_refl ltac:(lia))
    as (mrs & Hs & HlocW).
  replace (E + (e1 - E)) with e1 in Hs by lia.
  set (W := D * 2 ^ (e1 - E)) in *.
  pose proof (located_round N W mrs HlocW) as [Hm1 Herr].
  set (m1 := round_nearest_even (shr_m mrs) (loc_of_shr_record mrs)) in *.
  assert (Hmb : 0 <= shr_m mrs < 2 ^ 53).
  { destruct HlocW as (HW & Hm & HRW & _). split; [exact Hm |].
    assert (H2 : 0 < 2 ^ (e1 - E)) by (apply Z.pow_pos_nonneg; lia).
    assert (shr_m mrs * 2 ^ (e1 - E) <= q).
    { unfold W in HRW. nia. }
    rewrite Z.pow_add_r in Hdq by lia. nia. }
  exists m1. split; [lia |]. split; [exact Herr |].
  unfold binary_round_aux. rewrite Hs. fold m1.
  apply renormalise; lia.
Qed.

(** ** Powers of two and values in [Q] *)

Lemma pow2_pos e : (0 < 2 ^ e)%Q.
Proof. apply Qpower_0_lt. reflexivity. Qed.

Lemma pow2_add a b : (2 ^ (a + b) == 2 ^ a * 2 ^ b)%Q.
Proof. apply Qpower_plus. discriminate. Qed.

Lemma pow2_inject n : 0 <= n -> (inject_Z (2 ^ n) == 2 ^ n)%Q.
Proof. intros H. now rewrite Zpower_Qpower. Qed.

Lemma pow2_le a b : a <= b -> (2 ^ a <= 2 ^ b)%Q.
Proof. intros H. apply Qpower_le_compat_l; [exact H | discriminate]. Qed.

Lemma pow2_lt_inv a b : (2 ^ a < 2 ^ b)%Q -> a < b.
Proof. intros H. apply (Qpower_lt_compat_l_inv 2); [exact H | reflexivity]. Qed.

Lemma pow2_half e : (2 ^ e == 2 * 2 ^ (e - 1))%Q.
Proof.
  replace e with (1 + (e - 1)) at 1 by lia. rewrite pow2_add. reflexivity.
Qed.

(** A float that [represents] a rounded value has that value. *)
Lemma represents_value sx m1 e1 f :
  represents sx m1 e1 f ->
  is_finite f = true /\
  (F2Q f == (if sx then - (inject_Z m1 * 2 ^ e1) else inject_Z m1 * 2 ^ e1))%Q /\
  (sx = false -> is_nonneg f = true).
Proof.
  intros [[-> ->] | (m & e & -> & He & <-)].
  - cbn. split; [reflexivity |]. split; [destruct sx; ring | reflexivity].
  - cbn [is_finite F2Q]. split; [reflexivity |]. split.
    + rewrite inject_Z_mult.
      assert (Hp : (2 ^ e == inject_Z (2 ^ (e - e1)) * 2 ^ e1)%Q).
      { rewrite pow2_inject by lia. rewrite <- pow2_add.
        now replace (e - e1 + e1) with e by lia. }
      destruct sx; cbn [cond_Zopp]; [rewrite inject_Z_opp |]; rewrite Hp; ring.
    + intros ->. reflexivity.
Qed.

Lemma located_facts q lx N D :
  located N D (shr_record_of_loc q lx) ->
  0 <= q /\ 0 < D /\ 0 <= N - q * D < D.
Proof.
  intros (? & ? & ? & _). rewrite shr_m_of_loc in *. auto.
Qed.

(** The exponent at which a value below [2 ^ k] is rounded. *)
Lemma round_exponent q E (x : Q) k :
  0 <= q -> (inject_Z q <= x)%Q ->
  E <= fexp prec emax (Zdigits2 q + E) ->
  (x * 2 ^ E < 2 ^ k)%Q -> -1021 <= k ->
  fexp prec emax (Zdigits2 q + E) <= k - 53.
Proof.
  intros Hq Hqx Hn Hx Hk. rewrite fexp_eq in *.
  destruct q as [| p | p]; [cbn [Zdigits2] in *; lia | | lia].
  cbn [Zdigits2] in *.
  pose proof (digits2_pos_spec p) as [Hlo _].
  set (d := Zpos (digits2_pos p)) in *.
  assert (Hd : 0 <= d - 1) by (unfold d; lia).
  assert (d - 1 + E < k); [| lia].
  apply pow2_lt_inv. rewrite pow2_add.
  eapply Qle_lt_trans; [| exact Hx].
  apply Qmult_le_compat_r; [| apply Qlt_le_weak, pow2_pos].
  eapply Qle_trans; [| exact Hqx].
  rewrite <- pow2_inject by exact Hd. rewrite <- Zle_Qle. exact Hlo.
Qed.

(** [binary_round_aux] on a located value [x * 2 ^ E] below [2 ^ k]: the
    result is finite, has the sign [sx], and its magnitude is within
    [2 ^ (k - 54)] of the value. *)
Lemma round_error sx q E lx N D (x : Q) k :
  located N D (shr_record_of_loc q lx) ->
  (x * inject_Z D == inject_Z N)%Q ->
  E <= fexp prec emax (Zdigits2 q + E) ->
  (x * 2 ^ E < 2 ^ k)%Q -> -1021 <= k <= 1023 ->
  let f := binary_round_aux prec emax sx q E lx in
  exists y : Q,
    (0 <= y)%Q /\ (F2Q f == (if sx then - y else y))%Q /\
    is_finite f = true /\ (sx = false -> is_nonneg f = true) /\
    (Qabs (y - x * 2 ^ E) <= 2 ^ (k - 54))%Q.
Proof.
  intros Hloc Hx Hn Hlt Hk f.
  destruct (located_facts q lx N D Hloc) as (Hq & HD & HR).
  assert (HDq : (0 < inject_Z D)%Q) by (change (inject_Z 0 < inject_Z D)%Q; rewrite <- Zlt_Qlt; exact HD).
  assert (Hqx : (inject_Z q <= x)%Q).
  { apply (Qmult_le_r _ _ (inject_Z D) HDq). rewrite Hx, <- inject_Z_mult.
    rewrite <- Zle_Qle. lia. }
  pose proof (round_exponent q E x k Hq Hqx Hn Hlt ltac:(lia)) as He1.
  destruct (binary_round_aux_located sx q E lx N D Hloc Hn ltac:(lia))
    as (m1 & Hm1 & Herr & Hrep).
  fold f in Hrep. set (e1 := fexp prec emax (Zdigits2 q + E)) in *.
  destruct (represents_value sx m1 e1 f Hrep) as (Hfin & Hval & Hsign).
  exists (inject_Z m1 * 2 ^ e1)%Q.
  assert (H2E : (0 < 2 ^ E)%Q) by apply pow2_pos.
  split; [| split; [exact Hval | split; [exact Hfin | split; [exact Hsign |]]]].
  { apply Qmult_le_0_compat; [change (inject_Z 0 <= inject_Z m1)%Q; rewrite <- Zle_Qle; exact Hm1
                             | apply Qlt_le_weak, pow2_pos]. }
  set (P := 2 ^ (e1 - E)) in *.
  assert (HP : (2 ^ e1 == inject_Z P * 2 ^ E)%Q).
  { unfold P. rewrite pow2_inject by lia. rewrite <- pow2_add.
    now replace (e1 - E + E) with e1 by lia. }
  assert (Hb : (- inject_Z P <= 2 * (inject_Z m1 * inject_Z P - x) /\
                2 * (inject_Z m1 * inject_Z P - x) <= inject_Z P)%Q).
  { assert (Hc : (2 * (inject_Z m1 * inject_Z P - x) * inject_Z D
                  == inject_Z (2 * (m1 * (D * P) - N)))%Q).
    { unfold Z.sub. rewrite !inject_Z_mult, inject_Z_plus, inject_Z_opp,
        !inject_Z_mult, <- Hx. ring. }
    split; apply (Qmult_le_r _ _ (inject_Z D) HDq); rewrite Hc.
    - setoid_replace (- inject_Z P * inject_Z D)%Q with (inject_Z (- (D * P)))
        by (rewrite inject_Z_opp, inject_Z_mult; ring).
      rewrite <- Zle_Qle. lia.
    - rewrite <- inject_Z_mult, <- Zle_Qle. lia. }
  apply Qle_trans with (2 ^ (e1 - 1))%Q; [| apply pow2_le; lia].
  apply Qabs_Qle_condition.
  assert (Hh : (2 ^ e1 == 2 * 2 ^ (e1 - 1))%Q) by apply pow2_half.
  destruct Hb as [Hb1 Hb2].
  assert (Hd1 : (2 * (inject_Z m1 * 2 ^ e1 - x * 2 ^ E)
                 == 2 * (inject_Z m1 * inject_Z P - x) * 2 ^ E)%Q)
    by (rewrite HP; ring).
  assert (Hd2 : (2 * 2 ^ (e1 - 1) == inject_Z P * 2 ^ E)%Q)
    by (rewrite <- Hh; exact HP).
  apply (Qmult_le_compat_r _ _ (2 ^ E)) in Hb1; [| apply Qlt_le_weak, H2E].
  apply (Qmult_le_compat_r _ _ (2 ^ E)) in Hb2; [| apply Qlt_le_weak, H2E].
  rewrite <- Hd1 in Hb1, Hb2. rewrite <- Hd2 in Hb2.
  setoid_replace (- inject_Z P * 2 ^ E)%Q with (- (2 * 2 ^ (e1 - 1)))%Q in Hb1
    by (rewrite Hd2; ring).
  split; lra.
Qed.

(** ** Alignment of mantissas *)

Lemma iter_xO_value m d : Zpos (Pos.iter xO m d) = Zpos m * 2 ^ Zpos d.
Proof.
  induction d as [| d IH] using Pos.peano_ind.
  - cbn [Pos.iter]. change (2 ^ 1) with 2. lia.
  - rewrite Pos.iter_succ, Pos2Z.inj_succ, Z.pow_succ_r by lia.
    rewrite Pos2Z.inj_xO, IH. ring.
Qed.

Lemma iter_xO_digits m d :
  Zpos (digits2_pos (Pos.iter xO m d)) = Zpos (digits2_pos m) + Zpos d.
Proof.
  induction d as [| d IH] using Pos.peano_ind.
  - cbn [Pos.iter digits2_pos]. lia.
  - rewrite Pos.iter_succ. cbn [digits2_pos]. rewrite Pos2Z.inj_succ, IH. lia.
Qed.

(** [shl_align] keeps the value and lowers the exponent to [e'] when [e']
    is below [e]. *)
Lemma shl_align_spec m e e' :
  let '(m', e'') := shl_align m e e' in
  e'' = Z.min e e' /\ Zpos m' = Zpos m * 2 ^ (e - e'') /\
  Zpos (digits2_pos m') = Zpos (digits2_pos m) + (e - e'').
Proof.
  unfold shl_align. destruct (e' - e) as [| d | d] eqn:Hd.
  - replace (Z.min e e') with e by lia. rewrite Z.sub_diag. cbn. lia.
  - replace (Z.min e e') with e by lia. rewrite Z.sub_diag. cbn. lia.
  - replace (Z.min e e') with e' by lia.
    replace (e - e') with (Zpos d) by lia.
    split; [reflexivity |]. split; [apply iter_xO_value | apply iter_xO_digits].
Qed.

(** [binary_round] on [m * 2 ^ e] below [2 ^ k]. *)
Lemma binary_round_error sx m e k :
  (inject_Z (Zpos m) * 2 ^ e < 2 ^ k)%Q -> -1021 <= k <= 1023 ->
  let f := binary_round prec emax sx m e in
  exists y : Q,
    (0 <= y)%Q /\ (F2Q f == (if sx then - y else y))%Q /\
    is_finite f = true /\ (sx = false -> is_nonneg f = true) /\
    (Qabs (y - inject_Z (Zpos m) * 2 ^ e) <= 2 ^ (k - 54))%Q.
Proof.
  intros Hlt Hk. unfold binary_round.
  pose proof (shl_align_spec m e (fexp prec emax (Zpos (digits2_pos m) + e)))
    as Hal.
  destruct (shl_align m e (fexp prec emax (Zpos (digits2_pos m) + e)))
    as [mz ez]. destruct Hal as (Hez & Hmz & Hdz).
  assert (He : 0 <= e - ez) by lia.
  assert (Hv : (inject_Z (Zpos mz) * 2 ^ ez == inject_Z (Zpos m) * 2 ^ e)%Q).
  { rewrite Hmz, inject_Z_mult, pow2_inject by exact He.
    rewrite <- Qmult_assoc, <- pow2_add.
    now replace (e - ez + ez) with e by lia. }
  destruct (round_error sx (Zpos mz) ez loc_Exact (Zpos mz) 1
              (inject_Z (Zpos mz)) k) as (y & H).
  - apply located_exact. lia.
  - ring.
  - cbn [Zdigits2]. rewrite Hdz.
    replace (Zpos (digits2_pos m) + (e - ez) + ez)
      with (Zpos (digits2_pos m) + e) by lia. lia.
  - now rewrite Hv.
  - exact Hk.
  - exists y. rewrite <- Hv. exact H.
Qed.

(** ** The float operations of the codec, with their rounding errors *)

Lemma F2Q_finite s m e :
  (F2Q (S754_finite s m e)
   == (if s then - (inject_Z (Zpos m) * 2 ^ e) else inject_Z (Zpos m) * 2 ^ e))%Q.
Proof.
  cbn [F2Q]. destruct s; cbn [cond_Zopp]; [| reflexivity].
  change (Zneg m) with (- Zpos m). rewrite inject_Z_opp. ring.
Qed.

Lemma mantissa_pos m e : (0 < inject_Z (Zpos m) * 2 ^ e)%Q.
Proof.
  apply Qmult_lt_0_compat; [reflexivity | apply pow2_pos].
Qed.

Lemma F2Q_nonneg_sign f :
  is_finite f = true -> (0 <= F2Q f)%Q -> is_nonneg f = true.
Proof.
  destruct f as [s | s | | s m e]; try discriminate; [reflexivity |].
  intros _ H. rewrite F2Q_finite in H. destruct s; [| reflexivity].
  pose proof (mantissa_pos m e). lra.
Qed.

Lemma is_nonneg_F2Q f : is_nonneg f = true -> (0 <= F2Q f)%Q.
Proof.
  destruct f as [s | s | | s m e]; intros H; try discriminate H.
  - apply Qle_refl.
  - destruct s; [discriminate H |]. rewrite F2Q_finite.
    apply Qlt_le_weak, mantissa_pos.
Qed.

Lemma is_nonneg_finite f : is_nonneg f = true -> is_finite f = true.
Proof. destruct f; try discriminate; reflexivity. Qed.

(** [binary_normalize] on the integer [M] scaled by [2 ^ E]. *)
Lemma binary_normalize_error M E k :
  (Qabs (inject_Z M * 2 ^ E) < 2 ^ k)%Q -> -1021 <= k <= 1023 ->
  let f := binary_normalize prec emax M E false in
  is_finite f = true /\
  (Qabs (F2Q f - inject_Z M * 2 ^ E) <= 2 ^ (k - 54))%Q /\
  (0 <= M -> is_nonneg f = true).
Proof.
  intros Hlt Hk. destruct M as [| m | m]; cbn [binary_normalize].
  - split; [reflexivity |]. split; [| reflexivity].
    cbn [F2Q]. setoid_replace (0 - inject_Z 0 * 2 ^ E)%Q with 0%Q by ring.
    cbn [Qabs Z.abs Qnum Qden]. apply Qlt_le_weak, pow2_pos.
  - pose proof (mantissa_pos m E) as Hp.
    rewrite Qabs_pos in Hlt by lra.
    destruct (binary_round_error false m E k Hlt Hk)
      as (y & Hy & Hv & Hfin & Hs & He).
    split; [exact Hfin |]. split; [| intros _; now apply Hs].
    now rewrite Hv.
  - pose proof (mantissa_pos m E) as Hp.
    change (Zneg m) with (- Zpos m) in *. rewrite inject_Z_opp in *.
    assert (Hlt' : (inject_Z (Zpos m) * 2 ^ E < 2 ^ k)%Q).
    { rewrite Qabs_neg in Hlt by lra. lra. }
    destruct (binary_round_error true m E k Hlt' Hk)
      as (y & Hy & Hv & Hfin & Hs & He).
    split; [exact Hfin |]. split; [| intros H; lia].
    rewrite Hv.
    setoid_replace (- y - - inject_Z (Zpos m) * 2 ^ E)%Q
      with (- (y - inject_Z (Zpos m) * 2 ^ E))%Q by ring.
    now rewrite Qabs_opp.
Qed.

Lemma align_value s m e ez :
  ez <= e ->
  (inject_Z (cond_Zopp s (Zpos (fst (shl_align m e ez)))) * 2 ^ ez
   == F2Q (S754_finite s m e))%Q.
Proof.
  intros H. pose proof (shl_align_spec m e ez) as Hal.
  destruct (shl_align m e ez) as [m' e']. destruct Hal as (He' & Hm' & _).
  cbn [fst]. replace e' with ez in Hm' by lia.
  rewrite F2Q_finite.
  assert (Hv : (inject_Z (Zpos m') * 2 ^ ez == inject_Z (Zpos m) * 2 ^ e)%Q).
  { rewrite Hm', inject_Z_mult, pow2_inject by lia.
    rewrite <- Qmult_assoc, <- pow2_add.
    now replace (e - ez + ez) with e by lia. }
  destruct s; cbn [cond_Zopp]; [| exact Hv].
  change (Zneg m') with (- Zpos m'). rewrite inject_Z_opp, <- Hv. ring.
Qed.

(** [a + b] on finite floats whose sum is below [2 ^ k] in magnitude. *)
Lemma fadd_error a b k :
  is_finite a = true -> is_finite b = true ->
  (Qabs (F2Q a + F2Q b) < 2 ^ k)%Q -> -1021 <= k <= 1023 ->
  is_finite (fadd a b) = true /\
  (Qabs (F2Q (fadd a b) - (F2Q a + F2Q b)) <= 2 ^ (k - 54))%Q /\
  ((0 <= F2Q a + F2Q b)%Q -> is_nonneg (fadd a b) = true).
Proof.
  intros Ha Hb Hlt Hk.
  assert (Hz : forall x : Q, (Qabs (x - x) <= 2 ^ (k - 54))%Q).
  { intros x. setoid_replace (x - x)%Q with 0%Q by ring.
    apply Qlt_le_weak, pow2_pos. }
  destruct a as [sa | sa | | sa ma ea]; try discriminate;
    destruct b as [sb | sb | | sb mb eb]; try discriminate.
  - assert (E : is_finite (fadd (S754_zero sa) (S754_zero sb)) = true /\
                F2Q (fadd (S754_zero sa) (S754_zero sb)) = 0%Q /\
                is_nonneg (fadd (S754_zero sa) (S754_zero sb)) = true)
      by (destruct sa, sb; repeat split).
    destruct E as (E1 & E2 & E3). rewrite E2.
    split; [exact E1 |]. split; [| intros _; exact E3].
    exact (Hz 0%Q).
  - change (fadd (S754_zero sa) (S754_finite sb mb eb)) with (S754_finite sb mb eb).
    split; [reflexivity |]. split.
    + change (F2Q (S754_zero sa)) with 0%Q. rewrite Qplus_0_l. apply Hz.
    + intros H. apply F2Q_nonneg_sign; [reflexivity |].
      change (F2Q (S754_zero sa)) with 0%Q in H. lra.
  - change (fadd (S754_finite sa ma ea) (S754_zero sb)) with (S754_finite sa ma ea).
    split; [reflexivity |]. split.
    + change (F2Q (S754_zero sb)) with 0%Q. rewrite Qplus_0_r. apply Hz.
    + intros H. apply F2Q_nonneg_sign; [reflexivity |].
      change (F2Q (S754_zero sb)) with 0%Q in H. lra.
  - unfold fadd, SFadd.
    set (ez := Z.min ea eb).
    set (Ma := cond_Zopp sa (Zpos (fst (shl_align ma ea ez)))).
    set (Mb := cond_Zopp sb (Zpos (fst (shl_align mb eb ez)))).
    assert (Hs : (inject_Z (Ma + Mb) * 2 ^ ez
                  == F2Q (S754_finite sa ma ea) + F2Q (S754_finite sb mb eb))%Q).
    { rewrite inject_Z_plus, Qmult_plus_distr_l.
      unfold Ma, Mb. rewrite !align_value by (unfold ez; lia). reflexivity. }
    rewrite <- Hs in *.
    destruct (binary_normalize_error (Ma + Mb) ez k Hlt Hk) as (H1 & H2 & H3).
    split; [exact H1 |]. split; [exact H2 |].
    intros H. apply H3.
    pose proof (pow2_pos ez) as Hp.
    destruct (Z.le_gt_cases 0 (Ma + Mb)) as [Hge | Hneg]; [exact Hge |].
    exfalso. rewrite Zlt_Qlt in Hneg.
    assert (inject_Z (Ma + Mb) * 2 ^ ez < 0)%Q; [| lra].
    setoid_replace 0%Q with (0 * 2 ^ ez)%Q by ring.
    apply Qmult_lt_compat_r; assumption.
Qed.

(** [a - b] on finite floats whose difference is below [2 ^ k] in
    magnitude. *)
Lemma fsub_error a b k :
  is_finite a = true -> is_finite b = true ->
  (Qabs (F2Q a - F2Q b) < 2 ^ k)%Q -> -1021 <= k <= 1023 ->
  is_finite (fsub a b) = true /\
  (Qabs (F2Q (fsub a b) - (F2Q a - F2Q b)) <= 2 ^ (k - 54))%Q.
Proof.
  intros Ha Hb Hlt Hk.
  assert (Hz : forall x y : Q, (x == y)%Q -> (Qabs (x - y) <= 2 ^ (k - 54))%Q).
  { intros x y ->. setoid_replace (y - y)%Q with 0%Q by ring.
    apply Qlt_le_weak, pow2_pos. }
  destruct a as [sa | sa | | sa ma ea]; try discriminate;
    destruct b as [sb | sb | | sb mb eb]; try discriminate.
  - assert (E : is_finite (fsub (S754_zero sa) (S754_zero sb)) = true /\
                F2Q (fsub (S754_zero sa) (S754_zero sb)) = 0%Q)
      by (destruct sa, sb; split; reflexivity).
    destruct E as (E1 & E2). rewrite E2. split; [exact E1 |].
    apply Hz. reflexivity.
  - change (fsub (S754_zero sa) (S754_finite sb mb eb))
      with (S754_finite (negb sb) mb eb).
    split; [reflexivity |]. apply Hz.
    change (F2Q (S754_zero sa)) with 0%Q. rewrite !F2Q_finite.
    destruct sb; cbn [negb]; ring.
  - change (fsub (S754_finite sa ma ea) (S754_zero sb))
      with (S754_finite sa ma ea).
    split; [reflexivity |]. apply Hz.
    change (F2Q (S754_zero sb)) with 0%Q. ring.
  - unfold fsub, SFsub.
    set (ez := Z.min ea eb).
    set (Ma := cond_Zopp sa (Zpos (fst (shl_align ma ea ez)))).
    set (Mb := cond_Zopp sb (Zpos (fst (shl_align mb eb ez)))).
    assert (Hs : (inject_Z (Ma - Mb) * 2 ^ ez
                  == F2Q (S754_finite sa ma ea) - F2Q (S754_finite sb mb eb))%Q).
    { unfold Z.sub. rewrite inject_Z_plus, inject_Z_opp, Qmult_plus_distr_l.
      setoid_replace (- inject_Z Mb * 2 ^ ez)%Q with (- (inject_Z Mb * 2 ^ ez))%Q
        by ring.
      unfold Ma, Mb. rewrite !align_value by (unfold ez; lia). reflexivity. }
    rewrite <- Hs in *.
    destruct (binary_normalize_error (Ma - Mb) ez k Hlt Hk) as (H1 & H2 & _).
    split; [exact H1 | exact H2].
Qed.

(** [a * b] for a non-negative [a] and a positive [b] whose mantissa has
    53 bits. *)
Lemma fmul_error a mb eb k :
  is_nonneg a = true -> 2 ^ 52 <= Zpos mb ->
  (F2Q a * F2Q (S754_finite false mb eb) < 2 ^ k)%Q -> -1021 <= k <= 1023 ->
  let f := fmul a (S754_finite false mb eb) in
  is_nonneg f = true /\
  (Qabs (F2Q f - F2Q a * F2Q (S754_finite false mb eb)) <= 2 ^ (k - 54))%Q.
Proof.
  intros Ha Hmb Hlt Hk.
  destruct a as [sa | sa | | sa ma ea]; try discriminate.
  - cbn [fmul SFmul]. split; [reflexivity |].
    change (F2Q (S754_zero sa)) with 0%Q.
    change (F2Q (S754_zero (xorb sa false))) with 0%Q.
    setoid_replace (0 - 0 * F2Q (S754_finite false mb eb))%Q with 0%Q by ring.
    apply Qlt_le_weak, pow2_pos.
  - destruct sa; [discriminate |]. intros f. unfold f, fmul, SFmul.
    cbn [xorb].
    assert (Hv : (inject_Z (Zpos (ma * mb)) * 2 ^ (ea + eb)
                  == F2Q (S754_finite false ma ea) * F2Q (S754_finite false mb eb))%Q).
    { rewrite !F2Q_finite, Pos2Z.inj_mul, inject_Z_mult, pow2_add. ring. }
    destruct (round_error false (Zpos (ma * mb)) (ea + eb) loc_Exact
                (Zpos (ma * mb)) 1 (inject_Z (Zpos (ma * mb))) k)
      as (y & Hy & Hval & Hfin & Hs & He).
    + apply located_exact. lia.
    + ring.
    + rewrite fexp_eq.
      assert (53 <= Zdigits2 (Zpos (ma * mb))); [| lia].
      pose proof (Zdigits2_lt (Zpos (ma * mb)) ltac:(lia)) as Hd.
      assert (52 < Zdigits2 (Zpos (ma * mb))); [| lia].
      apply (Z.pow_lt_mono_r_iff 2); [lia | cbn [Zdigits2]; lia |].
      eapply Z.le_lt_trans; [| exact Hd]. rewrite Pos2Z.inj_mul. nia.
    + now rewrite Hv.
    + exact Hk.
    + split; [now apply Hs |]. rewrite Hval, <- Hv. exact He.
Qed.

(** [int(p)] on a non-negative float is the floor of its value. *)
Lemma int_of_float_floor p :
  is_nonneg p = true ->
  exists n, int_of_float p = Ok n /\ 0 <= n /\
            (inject_Z n <= F2Q p)%Q /\ (F2Q p < inject_Z n + 1)%Q.
Proof.
  intros Hp. destruct p as [s | s | | s m e]; try discriminate.
  - exists 0. split; [reflexivity |]. split; [lia |]. cbn [F2Q].
    split; [apply Qle_refl | reflexivity].
  - destruct s; [discriminate |]. cbn [int_of_float cond_Zopp].
    pose proof (F2Q_finite false m e) as HF. cbv iota in HF.
    destruct e as [| k | k].
    + exists (Zpos m). split; [reflexivity |]. split; [lia |].
      rewrite HF. change (2 ^ 0)%Q with 1%Q. split; lra.
    + exists (Z.shiftl (Zpos m) (Zpos k)). split; [reflexivity |].
      rewrite Z.shiftl_mul_pow2 by lia.
      split; [lia |].
      rewrite HF, inject_Z_mult, pow2_inject by lia. split; lra.
    + exists (Z.shiftr (Zpos m) (Zpos k)). split; [reflexivity |].
      rewrite Z.shiftr_div_pow2 by lia. rewrite HF.
      assert (H2 : 0 < 2 ^ Zpos k) by (apply Z.pow_pos_nonneg; lia).
      pose proof (Z.div_mod (Zpos m) (2 ^ Zpos k) ltac:(lia)) as Hdm.
      pose proof (Z.mod_pos_bound (Zpos m) (2 ^ Zpos k) H2) as Hmod.
      set (n := Zpos m / 2 ^ Zpos k) in *.
      assert (Hn : 0 <= n) by (apply Z.div_pos; lia).
      split; [exact Hn |].
      pose proof (pow2_pos (Zpos k)) as Hpk.
      assert (Hinv : (2 ^ Zneg k * 2 ^ Zpos k == 1)%Q).
      { rewrite <- pow2_add. replace (Zneg k + Zpos k) with 0 by lia.
        reflexivity. }
      assert (Hlo : (inject_Z n * 2 ^ Zpos k <= inject_Z (Zpos m))%Q).
      { rewrite <- pow2_inject, <- inject_Z_mult, <- Zle_Qle by lia. lia. }
      assert (Hhi : (inject_Z (Zpos m) < (inject_Z n + 1) * 2 ^ Zpos k)%Q).
      { change 1%Q with (inject_Z 1).
        rewrite <- inject_Z_plus, <- pow2_inject, <- inject_Z_mult, <- Zlt_Qlt
          by lia. lia. }
      split.
      * apply (Qmult_le_r _ _ (2 ^ Zpos k) Hpk).
        rewrite <- Qmult_assoc, Hinv, Qmult_1_r. exact Hlo.
      * apply (Qmult_lt_r _ _ (2 ^ Zpos k) Hpk).
        rewrite <- Qmult_assoc, Hinv, Qmult_1_r. exact Hhi.
Qed.

(** [float(n)] for a natural number below [2 ^ k]. *)
Lemma float_of_int_error n k :
  0 <= n -> (inject_Z n < 2 ^ k)%Q -> -1021 <= k <= 1023 ->
  exists f, float_of_int n = Ok f /\ f = fconst n /\ is_nonneg f = true /\
            (Qabs (F2Q f - inject_Z n) <= 2 ^ (k - 54))%Q.
Proof.
  intros Hn Hlt Hk.
  assert (Hn1 : (inject_Z n * 2 ^ 0 == inject_Z n)%Q)
    by (change (2 ^ 0)%Q with 1%Q; ring).
  assert (Hn0 : (0 <= inject_Z n)%Q)
    by (change (inject_Z 0 <= inject_Z n)%Q; rewrite <- Zle_Qle; exact Hn).
  destruct (binary_normalize_error n 0 k) as (H1 & H2 & H3).
  - rewrite Hn1, Qabs_pos; assumption.
  - exact Hk.
  - exists (fconst n). unfold float_of_int, fconst in *.
    rewrite Hn1 in H2. specialize (H3 Hn).
    destruct (binary_normalize prec emax n 0 false); try discriminate;
      repeat split; assumption.
Qed.

(** The location [SFdiv] computes from a remainder. *)
Lemma new_location_located D r q :
  0 < D -> 0 <= r < D -> 0 <= q ->
  located (q * D + r) D (shr_record_of_loc q (new_location D r)).
Proof.
  intros HD Hr Hq. unfold located.
  rewrite shr_m_of_loc. replace (q * D + r - q * D) with r by lia.
  split; [exact HD |]. split; [exact Hq |]. split; [exact Hr |].
  unfold new_location, new_location_even, new_location_odd.
  destruct (Z.even D) eqn:Hev.
  - destruct (Z.eqb_spec r 0) as [-> | Hr0].
    + cbn [shr_record_of_loc shr_r shr_s].
      destruct (Z.leb_spec D (2 * 0)); [lia |]. split; reflexivity.
    + destruct (Z.compare_spec (2 * r) D) as [Heq | Hlt | Hgt];
        cbn [shr_record_of_loc shr_r shr_s];
        destruct (Z.leb_spec D (2 * r)); try lia;
        destruct (Z.eqb_spec (2 * r) D); try lia;
        destruct (Z.eqb_spec r 0); try lia; split; reflexivity.
  - assert (Hodd : exists c, D = 2 * c + 1).
    { apply Z.odd_spec. rewrite <- Z.negb_even, Hev. reflexivity. }
    destruct Hodd as (c & Hc).
    destruct (Z.eqb_spec r 0) as [-> | Hr0].
    + cbn [shr_record_of_loc shr_r shr_s].
      destruct (Z.leb_spec D (2 * 0)); [lia |]. split; reflexivity.
    + destruct (Z.compare_spec (2 * r + 1) D) as [Heq | Hlt | Hgt];
        cbn [shr_record_of_loc shr_r shr_s];
        destruct (Z.leb_spec D (2 * r)); try lia;
        destruct (Z.eqb_spec (2 * r) D); try lia;
        destruct (Z.eqb_spec r 0); try lia; split; reflexivity.
Qed.

(** [a / b] for a non-negative [a] and a positive [b]. *)
Lemma fdiv_error a mb eb k :
  is_nonneg a = true ->
  (F2Q a / F2Q (S754_finite false mb eb) < 2 ^ k)%Q -> -1021 <= k <= 1023 ->
  let f := fdiv a (S754_finite false mb eb) in
  is_nonneg f = true /\
  (Qabs (F2Q f - F2Q a / F2Q (S754_finite false mb eb)) <= 2 ^ (k - 54))%Q.
Proof.
  intros Ha Hlt Hk.
  pose proof (mantissa_pos mb eb) as Hbpos.
  pose proof (F2Q_finite false mb eb) as HFb. cbv iota in HFb.
  destruct a as [sa | sa | | sa ma ea]; try discriminate.
  - cbn [fdiv SFdiv]. split; [reflexivity |].
    change (F2Q (S754_zero (xorb sa false))) with 0%Q.
    change (F2Q (S754_zero sa)) with 0%Q.
    setoid_replace (0 - 0 / F2Q (S754_finite false mb eb))%Q with 0%Q
      by (unfold Qdiv; ring).
    apply Qlt_le_weak, pow2_pos.
  - destruct sa; [discriminate |]. intros f. unfold f, fdiv, SFdiv.
    cbn [xorb]. unfold SFdiv_core_binary.
    pose proof (F2Q_finite false ma ea) as HFa. cbv iota in HFa.
    set (d1 := Zdigits2 (Zpos ma)). set (d2 := Zdigits2 (Zpos mb)).
    set (e' := Z.min (fexp prec emax (d1 + ea - (d2 + eb))) (ea - eb)).
    set (s := ea - eb - e').
    assert (Hs : 0 <= s) by (unfold s, e'; lia).
    set (m' := match s with
               | 0 => Zpos ma
               | Zpos _ => Z.shiftl (Zpos ma) s
               | Zneg _ => 0
               end).
    assert (Hm' : m' = Zpos ma * 2 ^ s).
    { unfold m'. destruct s as [| p | p]; [cbn; lia | | lia].
      apply Z.shiftl_mul_pow2. lia. }
    assert (H2s : 0 < 2 ^ s) by (apply Z.pow_pos_nonneg; lia).
    pose proof (Z.div_eucl_eq m' (Zpos mb) ltac:(lia)) as Hde.
    pose proof (Z.mod_pos_bound m' (Zpos mb) ltac:(lia)) as Hmod.
    unfold Z.modulo in Hmod.
    assert (Hq0 : 0 <= m' / Zpos mb) by (apply Z.div_pos; lia).
    unfold Z.div in Hq0.
    destruct (Z.div_eucl m' (Zpos mb)) as [q r] eqn:Hqr.
    cbn [fst snd] in *.
    set (x := (inject_Z m' / inject_Z (Zpos mb))%Q).
    assert (Hmbq : ~ (inject_Z (Zpos mb) == 0)%Q) by discriminate.
    assert (Hx : (x * inject_Z (Zpos mb) == inject_Z (q * Zpos mb + r))%Q).
    { unfold x. replace (q * Zpos mb + r) with m' by lia.
      field. exact Hmbq. }
    assert (HX : (x * 2 ^ e'
                  == F2Q (S754_finite false ma ea) / F2Q (S754_finite false mb eb))%Q).
    { assert (Hpow : (2 ^ ea == 2 ^ s * 2 ^ e' * 2 ^ eb)%Q).
      { rewrite <- !pow2_add.
        now replace (s + e' + eb) with ea by (unfold s; lia). }
      rewrite HFa, HFb, Hpow. unfold x.
      rewrite Hm', inject_Z_mult, pow2_inject by lia.
      field. split; [| exact Hmbq].
      pose proof (pow2_pos eb). lra. }
    destruct (round_error false q e' (new_location (Zpos mb) r)
                (q * Zpos mb + r) (Zpos mb) x k)
      as (y & Hy & Hval & Hfin & Hsg & He).
    + apply new_location_located; lia.
    + exact Hx.
    + rewrite fexp_eq. destruct (Z.le_gt_cases e' (-1074)) as [Hlow | Hhigh];
        [lia |].
      assert (53 <= Zdigits2 q); [| lia].
      assert (He' : e' <= d1 + ea - (d2 + eb) - 53).
      { unfold e' in *. rewrite fexp_eq in *. lia. }
      pose proof (digits2_pos_spec ma) as [Hma _].
      pose proof (digits2_pos_spec mb) as [_ Hmb].
      fold (Zdigits2 (Zpos ma)) in Hma. fold (Zdigits2 (Zpos mb)) in Hmb.
      fold d1 in Hma. fold d2 in Hmb.
      assert (Hd1 : 0 < d1) by (unfold d1; cbn [Zdigits2]; lia).
      assert (Hd2 : 0 < d2) by (unfold d2; cbn [Zdigits2]; lia).
      assert (Hbig : 2 ^ 52 * Zpos mb <= m').
      { rewrite Hm'.
        apply Z.le_trans with (2 ^ 52 * 2 ^ d2); [nia |].
        apply Z.le_trans with (2 ^ (d1 - 1) * 2 ^ s);
          [| apply Z.mul_le_mono_nonneg_r; lia].
        rewrite <- !Z.pow_add_r by lia.
        apply Z.pow_le_mono_r; [lia |]. unfold s. lia. }
      assert (Hq52 : 2 ^ 52 <= q) by nia.
      pose proof (Zdigits2_lt q ltac:(lia)) as Hdq.
      assert (52 < Zdigits2 q); [| lia].
      apply (Z.pow_lt_mono_r_iff 2); [lia | |lia].
      destruct q; cbn [Zdigits2]; lia.
    + now rewrite HX.
    + exact Hk.
    + split; [now apply Hsg |]. rewrite Hval, <- HX. exact He.
Qed.
Lemma valid_mantissa s m e :
  valid_binary prec emax (S754_finite s m e) = true -> Zpos m < 2 ^ 53.
Proof.
  cbn [valid_binary]. unfold bounded, canonical_mantissa.
  intros H. apply andb_prop in H as [H _]. apply Z.eqb_eq in H.
  rewrite fexp_eq in H.
  pose proof (digits2_pos_spec m) as [_ Hhi].
  eapply Z.lt_le_trans; [exact Hhi |]. apply Z.pow_le_mono_r; lia.
Qed.

Lemma small_exponent_bound m e :
  Zpos m < 2 ^ 53 -> e < -49 -> (inject_Z (Zpos m) * 2 ^ e <= 8)%Q.
Proof.
  intros Hm He.
  apply Qle_trans with (inject_Z (2 ^ 53) * 2 ^ (-50))%Q; [| discriminate].
  apply Qle_trans with (inject_Z (2 ^ 53) * 2 ^ e)%Q.
  - apply Qmult_le_compat_r; [| apply Qlt_le_weak, pow2_pos].
    rewrite <- Zle_Qle. lia.
  - apply Qmult_le_l; [reflexivity |]. apply pow2_le. lia.
Qed.

Lemma same_exponent_bound m :
  (Zpos m <= 5629499534213120) ->
  (inject_Z (Zpos m) * 2 ^ (-49) <= 10)%Q.
Proof.
  intros Hm.
  apply Qle_trans with (inject_Z 5629499534213120 * 2 ^ (-49))%Q;
    [| discriminate].
  apply Qmult_le_compat_r; [| apply Qlt_le_weak, pow2_pos].
  rewrite <- Zle_Qle. exact Hm.
Qed.

Lemma fconst_10 : fconst 10 = S754_finite false 5629499534213120 (-49).
Proof. vm_compute. reflexivity. Qed.

Lemma fconst_minus_10 : fconst (-10) = S754_finite true 5629499534213120 (-49).
Proof. vm_compute. reflexivity. Qed.

Lemma fle_finite_pos m1 e1 m2 e2 :
  fle (S754_finite false m1 e1) (S754_finite false m2 e2) = true ->
  e1 < e2 \/ (e1 = e2 /\ Zpos m1 <= Zpos m2).
Proof.
  unfold fle, SFleb, SFcompare.
  destruct (Z.compare_spec e1 e2) as [He | He | He].
  - fold (Pos.compare m1 m2).
    destruct (Pos.compare_spec m1 m2) as [Hc | Hc | Hc]; intros H.
    + right. split; [exact He |]. rewrite Hc. apply Z.le_refl.
    + right. split; [exact He |]. apply Z.lt_le_incl, Pos2Z.pos_lt_pos, Hc.
    + discriminate H.
  - intros _. left. exact He.
  - intros H. discriminate H.
Qed.

Lemma fle_finite_neg m1 e1 m2 e2 :
  fle (S754_finite true m1 e1) (S754_finite true m2 e2) = true ->
  e2 < e1 \/ (e1 = e2 /\ Zpos m2 <= Zpos m1).
Proof.
  unfold fle, SFleb, SFcompare.
  destruct (Z.compare_spec e1 e2) as [He | He | He].
  - fold (Pos.compare m1 m2).
    destruct (Pos.compare_spec m1 m2) as [Hc | Hc | Hc]; intros H.
    + right. split; [exact He |]. rewrite Hc. apply Z.le_refl.
    + discriminate H.
    + right. split; [exact He |]. apply Z.lt_le_incl, Pos2Z.pos_lt_pos, Hc.
  - intros H. discriminate H.
  - intros _. left. exact He.
Qed.

(** A valid float that passes [-10 <= v <= 10] is finite and its value
    lies in the interval. *)
Lemma range_bounds v :
  valid_binary prec emax v = true ->
  fle (fconst (-10)) v = true -> fle v (fconst 10) = true ->
  is_finite v = true /\ (-10 <= F2Q v)%Q /\ (F2Q v <= 10)%Q.
Proof.
  rewrite fconst_10, fconst_minus_10.
  intros Hv Hlo Hhi.
  destruct v as [s | s | | s m e].
  - split; [reflexivity |]. change (F2Q (S754_zero s)) with 0%Q.
    split; discriminate.
  - destruct s; cbv in Hlo, Hhi; discriminate.
  - cbv in Hlo; discriminate Hlo.
  - pose proof (valid_mantissa s m e Hv) as Hm.
    pose proof (mantissa_pos m e) as Hpos.
    split; [reflexivity |]. rewrite F2Q_finite.
    destruct s.
    + split; [| lra]. clear Hhi.
      destruct (fle_finite_neg _ _ _ _ Hlo) as [He | [He Hc]].
      * pose proof (small_exponent_bound m e Hm He). lra.
      * subst e. pose proof (same_exponent_bound m Hc). lra.
    + split; [lra |]. clear Hlo.
      destruct (fle_finite_pos _ _ _ _ Hhi) as [He | [He Hc]].
      * pose proof (small_exponent_bound m e Hm He). lra.
      * subst e. pose proof (same_exponent_bound m Hc). lra.
Qed.

(** ** The encoder and the decoder *)

Lemma F2Q_scale : (F2Q DACChannel.scale == 3602879444198359 # 4294967296)%Q.
Proof. vm_compute. reflexivity. Qed.

Lemma F2Q_fconst_10 : (F2Q (fconst 10) == 10)%Q.
Proof. vm_compute. reflexivity. Qed.

Lemma float_of_int_10 : float_of_int 10 = Ok (fconst 10).
Proof. vm_compute. reflexivity. Qed.

Lemma pow2_m49 : (2 ^ (5 - 54) == 1 # 562949953421312)%Q.
Proof. vm_compute. reflexivity. Qed.

Lemma pow2_m30 : (2 ^ (24 - 54) == 1 # 1073741824)%Q.
Proof. vm_compute. reflexivity. Qed.

Lemma pow2_m50 : (2 ^ (4 - 54) == 1 # 1125899906842624)%Q.
Proof. vm_compute. reflexivity. Qed.

Lemma pow2_4 : (2 ^ 4 == 16)%Q.
Proof. vm_compute. reflexivity. Qed.

Lemma pow2_5 : (2 ^ 5 == 32)%Q.
Proof. vm_compute. reflexivity. Qed.

Lemma pow2_24 : (2 ^ 24 == 16777216)%Q.
Proof. vm_compute. reflexivity. Qed.

(** [v + 10] for a setpoint in the range: a float (or an exact int) that
    is not negative and within [2 ^ -49] of the sum. *)
Lemma shifted_setpoint v :
  valid_num v = true -> in_range v = true ->
  exists s, num_add_int v 10 = Ok s /\
    exists f, num_mul_float s DACChannel.scale = Ok (fmul f DACChannel.scale) /\
      is_nonneg f = true /\
      (Qabs (F2Q f - (num_value v + 10)) <= 1 # 562949953421312)%Q /\
      (-10 <= num_value v)%Q /\ (num_value v <= 10)%Q.
Proof.
  intros Hv Hr. unfold in_range in Hr. apply andb_prop in Hr as [Hlo Hhi].
  destruct v as [n | x].
  - cbn [int_le_num num_le_int] in Hlo, Hhi.
    apply Z.leb_le in Hlo. apply Z.leb_le in Hhi.
    exists (PInt (n + 10)). split; [reflexivity |].
    cbn [num_mul_float num_value].
    destruct (float_of_int_error (n + 10) 5) as (f & Hf & _ & Hnn & Herr).
    + lia.
    + rewrite pow2_5. change 32%Q with (inject_Z 32). rewrite <- Zlt_Qlt. lia.
    + lia.
    + exists f. rewrite Hf. split; [reflexivity |]. split; [exact Hnn |].
      rewrite pow2_m49 in Herr. rewrite inject_Z_plus in Herr.
      change (inject_Z 10) with 10%Q in Herr.
      split; [exact Herr |].
      change (-10)%Q with (inject_Z (-10)). change 10%Q with (inject_Z 10).
      rewrite <- !Zle_Qle. lia.
  - cbn [int_le_num num_le_int] in Hlo, Hhi. cbn [valid_num] in Hv.
    destruct (range_bounds x Hv Hlo Hhi) as (Hfin & Hge & Hle).
    cbn [num_add_int]. rewrite float_of_int_10. cbn [res_bind].
    exists (PFloat (fadd x (fconst 10))). split; [reflexivity |].
    cbn [num_mul_float num_value].
    exists (fadd x (fconst 10)). split; [reflexivity |].
    destruct (fadd_error x (fconst 10) 5) as (_ & Herr & Hnn).
    + exact Hfin.
    + reflexivity.
    + rewrite F2Q_fconst_10, pow2_5. apply Qabs_Qlt_condition. lra.
    + lia.
    + rewrite F2Q_fconst_10 in Herr, Hnn. rewrite pow2_m49 in Herr.
      split; [apply Hnn; lra |]. split; [exact Herr |]. split; assumption.
Qed.

(** What [set_process] computes for a setpoint in the range: the integer
    part [n] of a product [p] that is within [2 ^ -30] of
    [(s) * 838860.74], where [s] is within [2 ^ -49] of [v + 10]. *)
Lemma set_process_in_range v :
  valid_num v = true -> in_range v = true ->
  exists n, DACChannel.set_process v = Ok (format_06X n) /\
    0 <= n < 16777215 /\
    (inject_Z n <= (num_value v + 10) * (3602879444198359 # 4294967296)
                   + (1 # 100000000))%Q /\
    ((num_value v + 10) * (3602879444198359 # 4294967296)
       - (1 # 100000000) < inject_Z n + 1)%Q.
Proof.
  intros Hv Hr.
  destruct (shifted_setpoint v Hv Hr) as (s & Hs & f & Hmul & Hnn & Herr & Hge & Hle).
  apply Qabs_Qle_condition in Herr.
  pose proof (is_nonneg_F2Q f Hnn) as Hf0.
  destruct (fmul_error f 7205758888396718 (-33) 24 Hnn) as (Hpn & Hperr).
  - vm_compute. discriminate.
  - fold DACChannel.scale. rewrite F2Q_scale, pow2_24. lra.
  - lia.
  - fold DACChannel.scale in Hpn, Hperr. rewrite F2Q_scale, pow2_m30 in Hperr.
    apply Qabs_Qle_condition in Hperr.
    destruct (int_of_float_floor _ Hpn) as (n & Hn & Hn0 & Hnle & Hnlt).
    exists n. split.
    + unfold DACChannel.set_process. rewrite Hs. cbn [res_bind].
      rewrite Hmul. cbn [res_bind]. rewrite Hn. reflexivity.
    + split; [| split; lra].
      split; [exact Hn0 |].
      assert (Hq : (inject_Z n < inject_Z 16777215)%Q).
      { change (inject_Z 16777215) with 16777215%Q. lra. }
      rewrite <- Zlt_Qlt in Hq. exact Hq.
Qed.

Lemma div_scale (x : Q) :
  (x / F2Q DACChannel.scale == x * (4294967296 # 3602879444198359))%Q.
Proof. rewrite F2Q_scale. reflexivity. Qed.

(** What [cast] computes for a string that [int] reads as a 24-bit
    value [n]: a finite float within [10 ^ -14] of [n / 838860.74 - 10]. *)
Lemma cast_value s n :
  int16 s = Ok n -> 0 <= n < 2 ^ 24 ->
  exists d, DACChannel.cast s = Ok d /\ is_finite d = true /\
    d = fsub (fdiv (fconst n) DACChannel.scale) (fconst 10) /\
    (Qabs (F2Q d - (inject_Z n * (4294967296 # 3602879444198359) - 10))
     <= 1 # 100000000000000)%Q.
Proof.
  intros Hs Hn.
  assert (HnQ : (0 <= inject_Z n)%Q /\ (inject_Z n < 16777216)%Q).
  { change 0%Q with (inject_Z 0). change 16777216%Q with (inject_Z 16777216).
    rewrite <- Zle_Qle, <- Zlt_Qlt. change (2 ^ 24) with 16777216 in Hn. lia. }
  destruct HnQ as [Hn0 Hn1].
  destruct (float_of_int_error n 24) as (a & Ha & Hae & Hann & Haerr).
  - lia.
  - rewrite pow2_24. exact Hn1.
  - lia.
  - rewrite pow2_m30 in Haerr. apply Qabs_Qle_condition in Haerr.
    destruct (fdiv_error a 7205758888396718 (-33) 5 Hann) as (Hqnn & Hqerr).
    + fold DACChannel.scale. rewrite div_scale, pow2_5. lra.
    + lia.
    + fold DACChannel.scale in Hqnn, Hqerr.
      rewrite div_scale, pow2_m49 in Hqerr. apply Qabs_Qle_condition in Hqerr.
      pose proof (is_nonneg_F2Q _ Hqnn) as Hq0.
      destruct (fsub_error (fdiv a DACChannel.scale) (fconst 10) 4)
        as (Hdfin & Hderr).
      * apply is_nonneg_finite, Hqnn.
      * reflexivity.
      * rewrite F2Q_fconst_10, pow2_4. apply Qabs_Qlt_condition. lra.
      * lia.
      * rewrite F2Q_fconst_10, pow2_m50 in Hderr.
        apply Qabs_Qle_condition in Hderr.
        exists (fsub (fdiv a DACChannel.scale) (fconst 10)).
        split.
        { unfold DACChannel.cast. rewrite Hs. cbn [res_bind].
          rewrite Ha. cbn [res_bind]. rewrite float_of_int_10. reflexivity. }
        split; [exact Hdfin |]. split; [now rewrite Hae |].
        apply Qabs_Qle_condition. lra.
Qed.



(** The literal [838860.74] denotes the double [scale]: it is the quotient
    of [83886074] by [100] correctly rounded, and within half a unit in
    the last place of the decimal. *)
Lemma scale_is_literal :
  fdiv (fconst 83886074) (fconst 100) = DACChannel.scale /\
  (Qabs (F2Q DACChannel.scale - (83886074 # 100)) <= 1 # 17179869184)%Q.
Proof. split; vm_compute; [reflexivity | discriminate]. Qed.

(** The command of a checked setter is written whatever the handshake
    turns out to be. *)
Lemma control_set_sent ch code t :
  sent (snd (control_set ch (Ok code) (Some DACChannel.check_set_errors) t))
  = sent t ++ [channel_command ch code].
Proof.
  unfold control_set, bind, lift, write, DACChannel.check_set_errors, read.
  cbn [incoming sent]. destruct (incoming t) as [| r rest]; cbn.
  - reflexivity.
  - destruct (String.eqb r DACChannel.ack); reflexivity.
Qed.

(** ** The wire codes of the setpoints *)

(** C3. The encoder at the three reference voltages: [0.0] gives
    ["7FFFFF"] and [-10.0] gives ["000000"], but [10.0] gives ["FFFFFE"],
    not ["FFFFFF"]: [20.0 * 838860.74] is [16777214.8], and [int]
    truncates. *)
Theorem encode_reference_voltages :
  DACChannel.set_process (PFloat (S754_zero false)) = Ok "7FFFFF"%string /\
  DACChannel.set_process (PFloat (fconst 10)) = Ok "FFFFFE"%string /\
  DACChannel.set_process (PFloat (fconst (-10))) = Ok "000000"%string /\
  fmul (fconst 20) DACChannel.scale = S754_finite false 9007198610495898 (-29) /\
  (16777214 < F2Q (fmul (fconst 20) DACChannel.scale) < 16777215)%Q.
Proof. repeat split; vm_compute; reflexivity. Qed.

(** C4. For every setpoint in [-10, 10], an [int] or a float, the
    encoder returns a code, the decoder reads that code, and the
    voltage it returns is a finite float within [1.2e-6] of the
    setpoint. *)
Theorem round_trip_error v :
  valid_num v = true -> in_range v = true ->
  exists code d,
    DACChannel.set_process v = Ok code /\ DACChannel.cast code = Ok d /\
    is_finite d = true /\
    (Qabs (F2Q d - num_value v) <= 12 # 10000000)%Q.
Proof.
  intros Hv Hr.
  destruct (set_process_in_range v Hv Hr) as (n & Hcode & Hn & Hle & Hlt).
  assert (Hn' : 0 <= n < 2 ^ 24) by (change (2 ^ 24) with 16777216; lia).
  destruct (format_06X_wire_code n Hn') as [_ Hint].
  destruct (cast_value _ n Hint Hn') as (d & Hd & Hfin & _ & Herr).
  exists (format_06X n), d. repeat split; try assumption.
  apply Qabs_Qle_condition in Herr. apply Qabs_Qle_condition. lra.
Qed.

Lemma round_trip_error_witness :
  exists code d,
    DACChannel.set_process (PFloat (S754_finite false 4953959590107546 (-52)))
      = Ok code /\
    DACChannel.cast code = Ok d /\ is_finite d = true /\
    (Qabs (F2Q d - F2Q (S754_finite false 4953959590107546 (-52)))
     <= 12 # 10000000)%Q.
Proof.
  apply (round_trip_error (PFloat (S754_finite false 4953959590107546 (-52))));
    vm_compute; reflexivity.
Defined.

(** C8. Whatever setpoint the setter is given, an [int] or a float, in
    the range or not, the code it writes is made of exactly six
    upper-case hexadecimal digits and reads back as an integer between
    [0] and [2 ^ 24 - 1]; for a setpoint in the range this is the code
    of the setpoint itself. *)
Theorem wire_code_format ch v t :
  valid_num v = true ->
  exists code n,
    DACChannel.set_process (truncated_range v (-10) 10) = Ok code /\
    (in_range v = true -> DACChannel.set_process v = Ok code) /\
    is_wire_code code = true /\ int16 code = Ok n /\ 0 <= n <= 2 ^ 24 - 1 /\
    sent (snd (DACChannel.set_voltage_setpoint ch v t))
    = sent t ++ [channel_command ch code].
Proof.
  intros Hv. unfold DACChannel.set_voltage_setpoint, truncated_range.
  fold (in_range v). destruct (in_range v) eqn:Hr.
  - destruct (set_process_in_range v Hv Hr) as (n & Hcode & Hn & _).
    assert (Hn' : 0 <= n < 2 ^ 24) by (change (2 ^ 24) with 16777216; lia).
    destruct (format_06X_wire_code n Hn') as [Hw Hint].
    exists (format_06X n), n. rewrite Hcode.
    repeat split; try assumption; try lia. apply control_set_sent.
  - destruct (num_gt_int v 10).
    + exists "FFFFFE"%string, 16777214. rewrite set_process_ten.
      repeat split; try reflexivity; try discriminate. apply control_set_sent.
    + exists "000000"%string, 0. rewrite set_process_minus_ten.
      repeat split; try reflexivity; try discriminate. apply control_set_sent.
Qed.

Lemma wire_code_format_witness :
  exists code n,
    DACChannel.set_process (truncated_range (PFloat (fconst 11)) (-10) 10)
      = Ok code /\
    (in_range (PFloat (fconst 11)) = true ->
     DACChannel.set_process (PFloat (fconst 11)) = Ok code) /\
    is_wire_code code = true /\ int16 code = Ok n /\ 0 <= n <= 2 ^ 24 - 1 /\
    sent (snd (DACChannel.set_voltage_setpoint 3 (PFloat (fconst 11))
                 (mkAdapter [] [])))
    = sent (mkAdapter [] []) ++ [channel_command 3 code].
Proof.
  apply (wire_code_format 3 (PFloat (fconst 11)) (mkAdapter [] [])).
  vm_compute. reflexivity.
Defined.

(** ** The decoders *)

(** C5. The decoder reads up to six hexadecimal digits, in either
    case, as an unsigned value [n] below [2 ^ 24], and returns the float
    [n / 838860.74 - 10], computed with the constant of the encoder; its
    value is within [1e-14] of the exact quotient.  ["7FFFFF"] decodes to
    within [1e-6] of [0], ["FFFFFF"] to within [1e-6] of [10] and
    ["000000"] to [-10]. *)
Theorem cast_reads_unsigned_hex cs ds :
  Forall2 spells cs ds -> cs <> [] -> (List.length cs <= 6)%nat ->
  (0 <= digits_value ds < 2 ^ 24 /\
   exists d,
     DACChannel.cast (string_of_list_ascii cs) = Ok d /\
     d = fsub (fdiv (fconst (digits_value ds)) DACChannel.scale) (fconst 10) /\
     is_finite d = true /\
     (Qabs (F2Q d - (inject_Z (digits_value ds) / F2Q DACChannel.scale - 10))
      <= 1 # 100000000000000)%Q) /\
  (exists d, DACChannel.cast "7FFFFF" = Ok d /\
             (Qabs (F2Q d - 0) <= 1 # 1000000)%Q) /\
  (exists d, DACChannel.cast "FFFFFF" = Ok d /\
             (Qabs (F2Q d - 10) <= 1 # 1000000)%Q) /\
  DACChannel.cast "000000" = Ok (fconst (-10)).
Proof.
  intros Hsp Hne Hlen. split; [| split; [| split]].
  - assert (Hn : 0 <= digits_value ds < 2 ^ 24).
    { apply digits_value_bound.
      - exact (Forall2_spells_digits cs ds Hsp).
      - rewrite <- (Forall2_length Hsp). exact Hlen. }
    split; [exact Hn |].
    destruct (cast_value _ _ (int16_spelled cs ds Hsp Hne) Hn)
      as (d & Hd & Hfin & Heq & Herr).
    exists d. repeat split; try assumption.
    rewrite div_scale. exact Herr.
  - eexists. split; [vm_compute; reflexivity |]. vm_compute. discriminate.
  - eexists. split; [vm_compute; reflexivity |]. vm_compute. discriminate.
  - vm_compute. reflexivity.
Qed.

Lemma cast_reads_unsigned_hex_witness :
  exists d,
    DACChannel.cast "7fFfff" = Ok d /\
    d = fsub (fdiv (fconst 8388607) DACChannel.scale) (fconst 10) /\
    is_finite d = true.
Proof.
  destruct (cast_reads_unsigned_hex
              (list_ascii_of_string "7fFfff") [7; 15; 15; 15; 15; 15])
    as [[_ (d & Hd & Heq & Hfin & _)] _].
  - repeat constructor; vm_compute; intuition discriminate.
  - discriminate.
  - cbn. lia.
  - exists d. repeat split; assumption.
Defined.

(** What [_from_24bit_hex] computes for a string that [int] reads as a
    24-bit value [n]. *)
Lemma from_24bit_hex_value s n :
  int16 s = Ok n -> 0 <= n < 2 ^ 24 ->
  DACChannel._from_24bit_hex s
  = Ok (fmul (fdiv (fconst (if 0x800000 <=? n then n - 0x1000000 else n))
                   (fconst 8388607))
             (fconst 10)).
Proof.
  intros Hs Hn. unfold DACChannel._from_24bit_hex. rewrite Hs. cbn [res_bind].
  set (val := if 0x800000 <=? n then n - 0x1000000 else n).
  assert (Hval : (Z.abs val <? 2 ^ 53) = true).
  { apply Z.ltb_lt. subst val. change (2 ^ 24) with 16777216 in Hn.
    change (2 ^ 53) with 9007199254740992.
    destruct (Z.leb_spec 0x800000 n); lia. }
  unfold int_truediv. change (8388607 =? 0) with false.
  change (Z.abs 8388607 <? 2 ^ 53) with true. rewrite Hval.
  cbn [andb res_bind]. rewrite float_of_int_10. reflexivity.
Qed.

(** C9. On a code of six hexadecimal digits of value [n] the two
    decoders compute different expressions: [_from_24bit_hex] takes [n]
    as a two's-complement number, [n - 2 ^ 24] from [0x800000] on, and
    returns it divided by [8388607] and multiplied by [10]; the live
    decoder returns [n / 838860.74 - 10].  On ["FFFFFF"] the first gives
    a voltage just below [0] and the second one just above [10]. *)
Theorem legacy_decoder_differs cs ds :
  Forall2 spells cs ds -> List.length cs = 6%nat ->
  (DACChannel._from_24bit_hex (string_of_list_ascii cs)
   = Ok (fmul (fdiv (fconst (if 0x800000 <=? digits_value ds
                             then digits_value ds - 0x1000000
                             else digits_value ds))
                    (fconst 8388607))
              (fconst 10)) /\
   DACChannel.cast (string_of_list_ascii cs)
   = Ok (fsub (fdiv (fconst (digits_value ds)) DACChannel.scale) (fconst 10))) /\
  is_wire_code "FFFFFF" = true /\
  (exists a b,
     DACChannel._from_24bit_hex "FFFFFF" = Ok a /\
     DACChannel.cast "FFFFFF" = Ok b /\
     (- (2 # 1000000) < F2Q a < 0)%Q /\ (10 < F2Q b < 10 + (1 # 1000000))%Q /\
     a <> b).
Proof.
  intros Hsp Hlen.
  assert (Hne : cs <> []) by (intros ->; discriminate Hlen).
  assert (Hn : 0 <= digits_value ds < 2 ^ 24).
  { apply digits_value_bound.
    - exact (Forall2_spells_digits cs ds Hsp).
    - rewrite <- (Forall2_length Hsp), Hlen. apply le_n. }
  pose proof (int16_spelled cs ds Hsp Hne) as Hint.
  split; [split |].
  - exact (from_24bit_hex_value _ _ Hint Hn).
  - destruct (cast_value _ _ Hint Hn) as (d & Hd & _ & Heq & _).
    rewrite Hd, Heq. reflexivity.
  - split; [vm_compute; reflexivity |].
    exists (S754_finite true 5629500205301840 (-72)),
           (S754_finite false 5629499668430858 (-49)).
    repeat split; try (vm_compute; reflexivity). discriminate.
Qed.

Lemma legacy_decoder_differs_witness :
  DACChannel._from_24bit_hex "800000" = Ok (fmul (fdiv (fconst (8388608 - 16777216)) (fconst 8388607)) (fconst 10)) /\
  DACChannel.cast "800000"
  = Ok (fsub (fdiv (fconst 8388608) DACChannel.scale) (fconst 10)).
Proof.
  refine (proj1 (legacy_decoder_differs
                   (list_ascii_of_string "800000") [8; 0; 0; 0; 0; 0] _ _)).
  - repeat constructor; vm_compute; intuition discriminate.
  - reflexivity.
Defined.

(** ** Switching everything off *)

(** C6. [disable_all] against the bulk status with channels 1 and 2 on,
    when the device answers each voltage command with the handshake
    ["0"]: the status is queried once, the voltage command of channel 1
    is written, and then the handshake is rejected; channel 1 is not
    switched off and nothing is written for channel 2. *)
Theorem disable_all_stops_at_first_handshake :
  BaspiLNHRDACII.disable_all (mkAdapter [] [status_1_2; "0"; "0"]%string)
  = (Raise (RuntimeError "Channel Error: 0"),
     mkAdapter ["ALL S?"; "1 7FFFFF"]%string ["0"%string]).
Proof. vm_compute. reflexivity. Qed.

(** ** The validator of [voltage_setpoint] *)

(** C2, counterexample.  The setpoints [11.0] and [-10.1] are outside the
    range, and yet no exception is raised before the I/O: a command is
    written and the handshake is read. *)
Lemma setpoint_11_is_sent :
  in_range (PFloat (fconst 11)) = false /\
  DACChannel.set_voltage_setpoint 1 (PFloat (fconst 11))
    (mkAdapter [] [DACChannel.ack])
  = (Ok tt, mkAdapter ["1 FFFFFE"%string] []) /\
  valid_num (PFloat (S754_finite true 5685794529555251 (-49))) = true /\
  in_range (PFloat (S754_finite true 5685794529555251 (-49))) = false /\
  DACChannel.set_voltage_setpoint 1
    (PFloat (S754_finite true 5685794529555251 (-49)))
    (mkAdapter [] [DACChannel.ack])
  = (Ok tt, mkAdapter ["1 000000"%string] []).
Proof. repeat split; vm_compute; reflexivity. Qed.

(** C2, as amended.  A setpoint outside [-10, 10] raises nothing before
    the I/O: the validator replaces it by the bound it exceeds, [10]
    above the range and [-10] otherwise, and the setter goes on exactly
    as it does for that bound.  A setpoint inside the range is kept as it
    is.  In every case the command that carries the code of the
    validated setpoint is written and the handshake line is read. *)
Theorem setpoint_is_clamped ch v t r rest :
  valid_num v = true -> incoming t = r :: rest ->
  (in_range v = false -> num_gt_int v 10 = true ->
   truncated_range v (-10) 10 = PInt 10 /\
   DACChannel.set_voltage_setpoint ch v t
   = DACChannel.set_voltage_setpoint ch (PInt 10) t) /\
  (in_range v = false -> num_gt_int v 10 = false ->
   truncated_range v (-10) 10 = PInt (-10) /\
   DACChannel.set_voltage_setpoint ch v t
   = DACChannel.set_voltage_setpoint ch (PInt (-10)) t) /\
  (in_range v = true -> truncated_range v (-10) 10 = v) /\
  (exists code,
     DACChannel.set_process (truncated_range v (-10) 10) = Ok code /\
     DACChannel.set_voltage_setpoint ch v t
     = (handshake_result r,
        mkAdapter (sent t ++ [channel_command ch code]) rest)).
Proof.
  intros Hv Hin.
  assert (Hhi : in_range v = false -> num_gt_int v 10 = true ->
                truncated_range v (-10) 10 = PInt 10).
  { unfold truncated_range. fold (in_range v). now intros -> ->. }
  assert (Hlo : in_range v = false -> num_gt_int v 10 = false ->
                truncated_range v (-10) 10 = PInt (-10)).
  { unfold truncated_range. fold (in_range v). now intros -> ->. }
  assert (Hmid : in_range v = true -> truncated_range v (-10) 10 = v).
  { unfold truncated_range. fold (in_range v). now intros ->. }
  split; [| split; [| split]].
  - intros H1 H2. split; [exact (Hhi H1 H2) |].
    unfold DACChannel.set_voltage_setpoint. now rewrite (Hhi H1 H2).
  - intros H1 H2. split; [exact (Hlo H1 H2) |].
    unfold DACChannel.set_voltage_setpoint. now rewrite (Hlo H1 H2).
  - exact Hmid.
  - unfold DACChannel.set_voltage_setpoint.
    destruct (in_range v) eqn:Hr.
    + rewrite (Hmid eq_refl).
      destruct (set_process_in_range v Hv Hr) as (n & Hcode & _).
      exists (format_06X n). split; [exact Hcode |].
      rewrite Hcode. now apply control_set_checked.
    + destruct (num_gt_int v 10) eqn:Hgt.
      * rewrite (Hhi eq_refl eq_refl), set_process_ten.
        eexists. split; [reflexivity |]. now apply control_set_checked.
      * rewrite (Hlo eq_refl eq_refl), set_process_minus_ten.
        eexists. split; [reflexivity |]. now apply control_set_checked.
Qed.

Lemma setpoint_is_clamped_witness :
  truncated_range (PFloat (S754_finite true 5685794529555251 (-49))) (-10) 10
  = PInt (-10) /\
  DACChannel.set_voltage_setpoint 5
    (PFloat (S754_finite true 5685794529555251 (-49)))
    (mkAdapter [] ["E1"%string])
  = DACChannel.set_voltage_setpoint 5 (PInt (-10)) (mkAdapter [] ["E1"%string]).
Proof.
  refine (proj1 (proj2 (setpoint_is_clamped 5
                          (PFloat (S754_finite true 5685794529555251 (-49)))
                          (mkAdapter [] ["E1"%string]) "E1"%string [] _ _))
            _ _); vm_compute; reflexivity.
Defined.

(** * Further properties of the driver *)

(** ** The handshake *)

Lemma handshake_run (check : io (list string)) t :
  check = DACChannel.check_set_errors \/ check = DACChannel.check_errors ->
  check t =
  match incoming t with
  | [] => (Raise ReadTimeout, t)
  | r :: rest =>
      (if String.eqb r DACChannel.ack then Ok []
       else Raise (RuntimeError ("Channel Error: " ++ r)),
       mkAdapter (sent t) rest)
  end.
Proof.
  intros [-> | ->];
    unfold DACChannel.check_set_errors, DACChannel.check_errors, bind, read;
    destruct (incoming t) as [| r rest]; try reflexivity;
    destruct (String.eqb r DACChannel.ack); reflexivity.
Qed.

(** X1.  [check_set_errors] writes nothing and takes at most one line from
    the adapter; it returns only the empty list, and only when that line
    is ["0\r\n"]; with no line to read it raises the timeout of the read
    and leaves the adapter as it was. *)
Theorem check_set_errors_frame t :
  sent (snd (DACChannel.check_set_errors t)) = sent t /\
  incoming (snd (DACChannel.check_set_errors t)) = tl (incoming t) /\
  (forall l, fst (DACChannel.check_set_errors t) = Ok l <->
             l = [] /\ hd_error (incoming t) = Some DACChannel.ack) /\
  (incoming t = [] ->
   DACChannel.check_set_errors t = (Raise ReadTimeout, t)).
Proof.
  rewrite (handshake_run _ t (or_introl eq_refl)).
  destruct (incoming t) as [| r rest] eqn:Hin;
    cbn [fst snd sent incoming tl hd_error].
  - split; [reflexivity |]. split; [exact Hin |]. split; [| reflexivity].
    intros l. split; [intros H | intros [_ H]]; discriminate H.
  - split; [reflexivity |]. split; [reflexivity |].
    split; [| intros H; discriminate H].
    intros l. destruct (String.eqb_spec r DACChannel.ack) as [-> | Hne].
    + split; [intros H | intros [-> _]]; [| reflexivity].
      injection H as <-. split; reflexivity.
    + split; [intros H; discriminate H | intros [_ H]].
      injection H as H. contradiction.
Qed.

(** X2.  [check_errors] succeeds exactly when the next line of the adapter is
    ["0\r\n"], as [check_set_errors] does, and the two leave the adapter
    in the same state. *)
Theorem check_errors_accepts_only_ack t :
  (fst (DACChannel.check_errors t) = Ok [] <->
   hd_error (incoming t) = Some DACChannel.ack) /\
  (fst (DACChannel.check_errors t) = Ok [] <->
   fst (DACChannel.check_set_errors t) = Ok []) /\
  snd (DACChannel.check_errors t) = snd (DACChannel.check_set_errors t).
Proof.
  rewrite (handshake_run _ t (or_introl eq_refl)).
  rewrite (handshake_run _ t (or_intror eq_refl)).
  split; [| split; reflexivity].
  destruct (incoming t) as [| r rest]; cbn [fst hd_error].
  - split; intros H; discriminate H.
  - destruct (String.eqb_spec r DACChannel.ack) as [-> | Hne]; split;
      intros H; try reflexivity; try discriminate H.
    injection H as H. contradiction.
Qed.

(** X3.  A line without the line feed is never accepted as a handshake:
    whatever else it holds, [check_set_errors] raises [RuntimeError]
    with the line in its message.  Such are the lines left once the
    read termination ["\n"] is taken off. *)
Theorem handshake_needs_line_feed t r rest :
  incoming t = r :: rest ->
  ~ In LF (list_ascii_of_string r) ->
  DACChannel.check_set_errors t
  = (Raise (RuntimeError ("Channel Error: " ++ r)), mkAdapter (sent t) rest).
Proof.
  intros Hin Hlf.
  apply (proj2 (check_set_errors_spec t r rest Hin)).
  intros ->. apply Hlf. cbn. auto.
Qed.

Lemma handshake_needs_line_feed_witness :
  DACChannel.check_set_errors (mkAdapter [] [String "0" (String CR EmptyString)])
  = (Raise (RuntimeError ("Channel Error: " ++ String "0" (String CR EmptyString))),
     mkAdapter [] []).
Proof.
  apply (handshake_needs_line_feed
           (mkAdapter [] [String "0" (String CR EmptyString)])
           (String "0" (String CR EmptyString)) []).
  - reflexivity.
  - cbn. intros [H | [H | []]]; discriminate H.
Defined.

(** ** Switching channels off *)

Lemma set_enabled_run ch on t :
  DACChannel.set_enabled ch on t
  = (Ok tt,
     mkAdapter (sent t ++ [channel_command ch (if on then "ON" else "OFF")])
               (incoming t)).
Proof. destruct on; reflexivity. Qed.

Lemma set_zero_run ch t :
  DACChannel.set_voltage_setpoint ch (PInt 0) t
  = match incoming t with
    | [] => (Raise ReadTimeout,
             mkAdapter (sent t ++ [channel_command ch "7FFFFF"]) [])
    | r :: rest =>
        (handshake_result r,
         mkAdapter (sent t ++ [channel_command ch "7FFFFF"]) rest)
    end.
Proof.
  destruct (incoming t) as [| r rest] eqn:Hin.
  - unfold DACChannel.set_voltage_setpoint.
    change (truncated_range (PInt 0) (-10) 10) with (PInt 0).
    rewrite set_process_zero.
    unfold control_set, bind, lift, write, DACChannel.check_set_errors, read.
    cbn [incoming sent]. rewrite Hin. reflexivity.
  - unfold DACChannel.set_voltage_setpoint.
    change (truncated_range (PInt 0) (-10) 10) with (PInt 0).
    rewrite set_process_zero. now apply control_set_checked.
Qed.

Lemma disable_each_cons ch chs t :
  BaspiLNHRDACII.disable_each (ch :: chs) t
  = match DACChannel.set_voltage_setpoint ch (PInt 0) t with
    | (Ok _, t1) =>
        BaspiLNHRDACII.disable_each chs
          (mkAdapter (sent t1 ++ [channel_command ch "OFF"]) (incoming t1))
    | (Raise e, t1) => (Raise e, t1)
    end.
Proof.
  cbn [BaspiLNHRDACII.disable_each]. unfold bind at 1.
  destruct (DACChannel.set_voltage_setpoint ch (PInt 0) t) as [[[] | e] t1];
    [| reflexivity].
  unfold bind at 1. rewrite set_enabled_run. reflexivity.
Qed.

Lemma disable_commands_app a b :
  disable_commands (a ++ b) = disable_commands a ++ disable_commands b.
Proof. unfold disable_commands. apply flat_map_app. Qed.

Lemma handshake_result_ack : handshake_result DACChannel.ack = Ok tt.
Proof. reflexivity. Qed.

Lemma handshake_result_other r :
  r <> DACChannel.ack ->
  handshake_result r = Raise (RuntimeError ("Channel Error: " ++ r)).
Proof.
  intros H. unfold handshake_result.
  destruct (String.eqb_spec r DACChannel.ack); [contradiction | reflexivity].
Qed.

(** The loop of [disable_all] over channels whose handshakes are all
    accepted. *)
Lemma disable_each_accepted chs : forall t rest,
  incoming t = repeat DACChannel.ack (List.length chs) ++ rest ->
  BaspiLNHRDACII.disable_each chs t
  = (Ok tt, mkAdapter (sent t ++ disable_commands chs) rest).
Proof.
  induction chs as [| ch chs IH]; intros t rest Hin.
  - cbn in Hin. cbn [BaspiLNHRDACII.disable_each disable_commands flat_map].
    rewrite app_nil_r. unfold ret. destruct t as [s i]. cbn in *. now subst.
  - rewrite disable_each_cons, set_zero_run.
    cbn [List.length repeat app] in Hin. rewrite Hin, handshake_result_ack.
    cbn [sent incoming]. rewrite (IH _ rest) by reflexivity.
    cbn [sent]. unfold disable_commands. cbn [flat_map].
    rewrite <- !app_assoc. reflexivity.
Qed.

(** The loop of [disable_all] in general: it writes a prefix of the
    commands of its channels, and nothing else. *)
Lemma disable_each_prefix chs : forall t,
  exists k, sent (snd (BaspiLNHRDACII.disable_each chs t))
            = sent t ++ firstn k (disable_commands chs).
Proof.
  induction chs as [| ch chs IH]; intros t.
  - exists 0%nat. cbn. now rewrite app_nil_r.
  - rewrite disable_each_cons, set_zero_run.
    destruct (incoming t) as [| r rest].
    + exists 1%nat. reflexivity.
    + unfold handshake_result. destruct (String.eqb r DACChannel.ack).
      * destruct (IH (mkAdapter
                        ((sent t ++ [channel_command ch "7FFFFF"])
                           ++ [channel_command ch "OFF"]) rest)) as [k Hk].
        exists (S (S k)). cbn [sent incoming]. rewrite Hk. cbn [sent].
        unfold disable_commands. cbn [flat_map firstn app].
        rewrite <- !app_assoc. reflexivity.
      * exists 1%nat. reflexivity.
Qed.

Lemma disable_all_run t raw rest :
  incoming t = raw :: rest ->
  BaspiLNHRDACII.disable_all t
  = BaspiLNHRDACII.disable_each
      (BaspiLNHRDACII.enabled_of (BaspiLNHRDACII.status_parts raw))
      (mkAdapter (sent t ++ ["ALL S?"%string]) rest).
Proof.
  intros Hin. unfold BaspiLNHRDACII.disable_all, bind.
  rewrite (enabled_channels_run t raw rest Hin). reflexivity.
Qed.

(** X4.  When every handshake is accepted, [disable_all] queries the bulk
    status once and then writes, for each enabled channel in ascending
    order, the zero-volt command followed by the OFF command; it reads
    one handshake per channel and nothing more. *)
Theorem disable_all_accepted t raw rest :
  incoming t
  = raw :: repeat DACChannel.ack
             (List.length (BaspiLNHRDACII.enabled_of
                             (BaspiLNHRDACII.status_parts raw))) ++ rest ->
  BaspiLNHRDACII.disable_all t
  = (Ok tt,
     mkAdapter (sent t ++ "ALL S?"%string
                  :: disable_commands
                       (BaspiLNHRDACII.enabled_of
                          (BaspiLNHRDACII.status_parts raw)))
               rest).
Proof.
  intros Hin. rewrite (disable_all_run t raw _ Hin).
  rewrite (disable_each_accepted _ _ rest) by reflexivity.
  cbn [sent]. rewrite <- app_assoc. reflexivity.
Qed.

Lemma disable_all_accepted_witness :
  BaspiLNHRDACII.disable_all
    (mkAdapter [] [status_1_2; DACChannel.ack; DACChannel.ack; "7FFFFF"%string])
  = (Ok tt,
     mkAdapter ["ALL S?"; "1 7FFFFF"; "1 OFF"; "2 7FFFFF"; "2 OFF"]%string
               ["7FFFFF"%string]).
Proof.
  apply (disable_all_accepted
           (mkAdapter [] [status_1_2; DACChannel.ack; DACChannel.ack;
                          "7FFFFF"%string])
           status_1_2 ["7FFFFF"%string]).
  reflexivity.
Defined.

(** The loop of [disable_all] when the handshake of [ch] fails: [next]
    is what the adapter holds after the accepted handshakes, [None] for
    nothing and [Some (r, rest)] for a line [r] that is not accepted. *)
Lemma disable_each_stops done ch todo next : forall t,
  incoming t
  = repeat DACChannel.ack (List.length done)
      ++ match next with Some (r, rest) => r :: rest | None => [] end ->
  match next with Some (r, _) => r <> DACChannel.ack | None => True end ->
  BaspiLNHRDACII.disable_each (done ++ ch :: todo) t
  = (match next with
     | Some (r, _) => Raise (RuntimeError ("Channel Error: " ++ r))
     | None => Raise ReadTimeout
     end,
     mkAdapter (sent t ++ disable_commands done ++ [channel_command ch "7FFFFF"])
               match next with Some (_, rest) => rest | None => [] end).
Proof.
  induction done as [| c done IH]; intros t Hin Hr.
  - cbn [app List.length repeat] in *.
    rewrite disable_each_cons, set_zero_run, Hin.
    destruct next as [[r rest] |]; [| reflexivity].
    rewrite (handshake_result_other r Hr). reflexivity.
  - cbn [app List.length repeat] in *.
    rewrite disable_each_cons, set_zero_run, Hin, handshake_result_ack.
    cbn [sent incoming]. rewrite IH by (reflexivity || exact Hr).
    cbn [sent]. unfold disable_commands. cbn [flat_map].
    rewrite <- !app_assoc. reflexivity.
Qed.

(** X5.  [disable_all] stops at the first handshake that is not accepted:
    the channels before it have been set to zero and switched off, the
    channel of the rejected handshake has received its zero-volt command
    but no OFF command, and nothing is written for the channels after
    it. *)
Theorem disable_all_stops_at_rejection t raw done ch todo r rest :
  BaspiLNHRDACII.enabled_of (BaspiLNHRDACII.status_parts raw)
  = done ++ ch :: todo ->
  incoming t = raw :: repeat DACChannel.ack (List.length done) ++ r :: rest ->
  r <> DACChannel.ack ->
  BaspiLNHRDACII.disable_all t
  = (Raise (RuntimeError ("Channel Error: " ++ r)),
     mkAdapter (sent t ++ "ALL S?"%string
                  :: disable_commands done ++ [channel_command ch "7FFFFF"])
               rest).
Proof.
  intros Hen Hin Hr. rewrite (disable_all_run t raw _ Hin), Hen.
  rewrite (disable_each_stops done ch todo (Some (r, rest)))
    by (reflexivity || exact Hr).
  cbn [sent]. rewrite <- app_assoc. reflexivity.
Qed.

Lemma disable_all_stops_at_rejection_witness :
  BaspiLNHRDACII.disable_all
    (mkAdapter [] [status_1_2; DACChannel.ack; "E4"%string])
  = (Raise (RuntimeError "Channel Error: E4"),
     mkAdapter ["ALL S?"; "1 7FFFFF"; "1 OFF"; "2 7FFFFF"]%string []).
Proof.
  apply (disable_all_stops_at_rejection
           (mkAdapter [] [status_1_2; DACChannel.ack; "E4"%string])
           status_1_2 [1] 2 [] "E4"%string []).
  - reflexivity.
  - reflexivity.
  - discriminate.
Defined.

(** X6.  When the handshakes run out, [disable_all] raises the timeout of
    the read: the channel whose handshake is missing has received its
    zero-volt command and stays on. *)
Theorem disable_all_times_out t raw done ch todo :
  BaspiLNHRDACII.enabled_of (BaspiLNHRDACII.status_parts raw)
  = done ++ ch :: todo ->
  incoming t = raw :: repeat DACChannel.ack (List.length done) ->
  BaspiLNHRDACII.disable_all t
  = (Raise ReadTimeout,
     mkAdapter (sent t ++ "ALL S?"%string
                  :: disable_commands done ++ [channel_command ch "7FFFFF"])
               []).
Proof.
  intros Hen Hin. rewrite (disable_all_run t raw _ Hin), Hen.
  rewrite (disable_each_stops done ch todo None);
    [| cbn [incoming]; now rewrite app_nil_r | exact I].
  cbn [sent]. rewrite <- app_assoc. reflexivity.
Qed.

Lemma disable_all_times_out_witness :
  BaspiLNHRDACII.disable_all (mkAdapter [] [status_1_2; DACChannel.ack])
  = (Raise ReadTimeout,
     mkAdapter ["ALL S?"; "1 7FFFFF"; "1 OFF"; "2 7FFFFF"]%string []).
Proof.
  apply (disable_all_times_out (mkAdapter [] [status_1_2; DACChannel.ack])
           status_1_2 [1] 2 []); reflexivity.
Defined.

(** X7.  Whatever the adapter holds, [disable_all] writes the status query
    and then a prefix of the commands of the channels the status
    reports as enabled, in order: no command is ever written for a
    channel that is off, and none out of order. *)
Theorem disable_all_writes_enabled_only t :
  exists k,
    sent (snd (BaspiLNHRDACII.disable_all t))
    = sent t ++ "ALL S?"%string
        :: firstn k (disable_commands
                       match incoming t with
                       | raw :: _ =>
                           BaspiLNHRDACII.enabled_of
                             (BaspiLNHRDACII.status_parts raw)
                       | [] => []
                       end).
Proof.
  destruct (incoming t) as [| raw rest] eqn:Hin.
  - exists 0%nat. unfold BaspiLNHRDACII.disable_all,
      BaspiLNHRDACII.enabled_channels, ask, bind, write, read.
    cbn [incoming sent]. rewrite Hin. reflexivity.
  - rewrite (disable_all_run t raw rest Hin).
    destruct (disable_each_prefix
                (BaspiLNHRDACII.enabled_of (BaspiLNHRDACII.status_parts raw))
                (mkAdapter (sent t ++ ["ALL S?"%string]) rest)) as [k Hk].
    exists k. rewrite Hk. cbn [sent]. rewrite <- app_assoc. reflexivity.
Qed.

(** X8.  [shutdown] runs the shutdown of the framework only after
    [disable_all] has returned.  When every handshake is accepted,
    [super().shutdown()] runs once the last channel is off; when a
    handshake is rejected, [shutdown] raises the error of [disable_all]
    and [super().shutdown()] is not run, whatever it is. *)
Theorem shutdown_runs_super_last (super_shutdown : io unit) t raw rest :
  incoming t = raw :: rest ->
  (forall rest',
     rest = repeat DACChannel.ack
              (List.length (BaspiLNHRDACII.enabled_of
                              (BaspiLNHRDACII.status_parts raw))) ++ rest' ->
     BaspiLNHRDACII.shutdown super_shutdown t
     = super_shutdown
         (mkAdapter (sent t ++ "ALL S?"%string
                       :: disable_commands
                            (BaspiLNHRDACII.enabled_of
                               (BaspiLNHRDACII.status_parts raw)))
                    rest')) /\
  (forall done ch todo r rest',
     BaspiLNHRDACII.enabled_of (BaspiLNHRDACII.status_parts raw)
     = done ++ ch :: todo ->
     rest = repeat DACChannel.ack (List.length done) ++ r :: rest' ->
     r <> DACChannel.ack ->
     BaspiLNHRDACII.shutdown super_shutdown t
     = (Raise (RuntimeError ("Channel Error: " ++ r)),
        mkAdapter (sent t ++ "ALL S?"%string
                     :: disable_commands done ++ [channel_command ch "7FFFFF"])
                  rest')).
Proof.
  intros Hin. unfold BaspiLNHRDACII.shutdown, bind.
  rewrite (disable_all_run t raw rest Hin). split.
  - intros rest' ->.
    rewrite (disable_each_accepted _ _ rest') by reflexivity.
    cbn [sent]. rewrite <- app_assoc. reflexivity.
  - intros done ch todo r rest' -> -> Hr.
    rewrite (disable_each_stops done ch todo (Some (r, rest')))
      by (reflexivity || exact Hr).
    cbn [sent]. rewrite <- app_assoc. reflexivity.
Qed.

Lemma shutdown_runs_super_last_witness :
  BaspiLNHRDACII.shutdown (write "shut down")
    (mkAdapter [] [status_1_2; "0"; "0"]%string)
  = (Raise (RuntimeError "Channel Error: 0"),
     mkAdapter ["ALL S?"; "1 7FFFFF"]%string ["0"%string]).
Proof.
  apply (proj2 (shutdown_runs_super_last (write "shut down")
                  (mkAdapter [] [status_1_2; "0"; "0"]%string)
                  status_1_2 ["0"; "0"]%string eq_refl)
           [] 1 [2] "0"%string ["0"%string]).
  - reflexivity.
  - reflexivity.
  - discriminate.
Defined.

(** ** The bulk status *)

Lemma zip_length_le {A B} (xs : list A) : forall (ys : list B),
  (List.length (zip xs ys) <= List.length xs)%nat.
Proof.
  induction xs as [| x xs IH]; intros [| y ys]; cbn; try lia.
  specialize (IH ys). lia.
Qed.

Lemma enabled_of_length parts :
  (List.length (BaspiLNHRDACII.enabled_of parts) <= 12)%nat.
Proof.
  unfold BaspiLNHRDACII.enabled_of. rewrite length_map.
  eapply Nat.le_trans; [apply filter_length_le |].
  apply (zip_length_le BaspiLNHRDACII.channels).
Qed.

Lemma enabled_of_channels parts ch :
  In ch (BaspiLNHRDACII.enabled_of parts) -> 1 <= ch <= 12.
Proof.
  intros H. apply enabled_sub in H.
  cbn in H. repeat (destruct H as [<- | H]; [lia |]). destruct H.
Qed.

(** X9.  [enabled_channels] writes the status query and nothing else, takes
    at most one line from the adapter and raises the timeout of the read
    when there is none; the channels it returns are at most twelve, each
    between 1 and 12. *)
Theorem enabled_channels_frame t :
  sent (snd (BaspiLNHRDACII.enabled_channels t)) = sent t ++ ["ALL S?"%string] /\
  incoming (snd (BaspiLNHRDACII.enabled_channels t)) = tl (incoming t) /\
  (hd_error (incoming t) = None <->
   fst (BaspiLNHRDACII.enabled_channels t) = Raise ReadTimeout) /\
  (forall chs, fst (BaspiLNHRDACII.enabled_channels t) = Ok chs ->
     (List.length chs <= 12)%nat /\ Forall (fun ch => 1 <= ch <= 12) chs).
Proof.
  destruct (incoming t) as [| raw rest] eqn:Hin.
  - assert (Hrun : BaspiLNHRDACII.enabled_channels t
                   = (Raise ReadTimeout, mkAdapter (sent t ++ ["ALL S?"%string]) [])).
    { unfold BaspiLNHRDACII.enabled_channels, ask, bind, write, read.
      cbn [incoming sent]. rewrite Hin. reflexivity. }
    rewrite Hrun. cbn [fst snd sent incoming tl hd_error].
    split; [reflexivity |]. split; [reflexivity |].
    split; [split; reflexivity |]. intros chs H. discriminate H.
  - rewrite (enabled_channels_run t raw rest Hin).
    cbn [fst snd sent incoming tl hd_error].
    split; [reflexivity |]. split; [reflexivity |].
    split; [split; intros H; discriminate H |].
    intros chs H. injection H as <-. split.
    + apply enabled_of_length.
    + apply Forall_forall. intros ch. apply enabled_of_channels.
Qed.

Lemma zip_app_surplus {A B} (xs : list A) : forall (ys zs : list B),
  (List.length xs <= List.length ys)%nat -> zip xs (ys ++ zs) = zip xs ys.
Proof.
  induction xs as [| x xs IH]; intros ys zs Hlen.
  - reflexivity.
  - destruct ys as [| y ys]; cbn in *; [lia |].
    rewrite IH by lia. reflexivity.
Qed.

(** X10.  Once twelve fields that are not blank have been read, whatever else
    the response holds is ignored: the surplus fields are dropped by the
    pairing with the twelve channels. *)
Theorem surplus_fields_are_ignored a b :
  (12 <= List.length (BaspiLNHRDACII.status_parts a))%nat ->
  BaspiLNHRDACII.enabled_of (BaspiLNHRDACII.status_parts (a ++ String ";" b))
  = BaspiLNHRDACII.enabled_of (BaspiLNHRDACII.status_parts a).
Proof.
  intros Hlen. rewrite status_parts_sep. unfold BaspiLNHRDACII.enabled_of.
  rewrite zip_app_surplus by exact Hlen. reflexivity.
Qed.

Lemma surplus_fields_are_ignored_witness :
  BaspiLNHRDACII.enabled_of
    (BaspiLNHRDACII.status_parts (status_1_2 ++ String ";" "ON;ON"))
  = BaspiLNHRDACII.enabled_of (BaspiLNHRDACII.status_parts status_1_2).
Proof.
  apply (surplus_fields_are_ignored status_1_2 "ON;ON").
  vm_compute. reflexivity.
Defined.

Lemma zip_all_false {A} (xs : list A) : forall bs,
  Forall (fun b => b = false) bs -> filter snd (zip xs bs) = [].
Proof.
  induction xs as [| x xs IH]; intros [| b bs] H; try reflexivity.
  inversion H as [| ? ? Hb Hbs]; subst. cbn. apply IH, Hbs.
Qed.

(** X11.  Only a field that is exactly [ON] once trimmed switches a channel
    on: a response none of whose fields is, however it spells its flags,
    reports no channel as enabled, and no error is raised. *)
Theorem only_exact_ON_counts t raw rest :
  incoming t = raw :: rest ->
  Forall (fun p => strip p <> "ON"%string) (split ";" raw) ->
  BaspiLNHRDACII.enabled_channels t
  = (Ok [], mkAdapter (sent t ++ ["ALL S?"%string]) rest).
Proof.
  intros Hin Hall. rewrite (enabled_channels_run t raw rest Hin).
  f_equal. f_equal. unfold BaspiLNHRDACII.enabled_of.
  rewrite zip_all_false; [reflexivity |].
  unfold BaspiLNHRDACII.status_parts. apply Forall_map.
  apply Forall_forall. intros p Hp. apply filter_In in Hp as [Hp _].
  rewrite Forall_forall in Hall. apply String.eqb_neq, Hall, Hp.
Qed.

Lemma only_exact_ON_counts_witness :
  BaspiLNHRDACII.enabled_channels (mkAdapter [] ["on;On;1;ENABLED;O N"%string])
  = (Ok [], mkAdapter ["ALL S?"%string] []).
Proof.
  apply (only_exact_ON_counts (mkAdapter [] ["on;On;1;ENABLED;O N"%string])
           "on;On;1;ENABLED;O N"%string []).
  - reflexivity.
  - vm_compute. repeat constructor; discriminate.
Defined.

(** ** The codes of the encoder *)

(** X12.  Formatting with [06X] and reading with [int(_, 16)] are inverse on
    the 24-bit values: the text has six upper-case hexadecimal digits and
    reads back as the value, so different values have different codes. *)
Theorem format_parse_round_trip n m :
  0 <= n < 2 ^ 24 -> 0 <= m < 2 ^ 24 ->
  is_wire_code (format_06X n) = true /\
  int16 (format_06X n) = Ok n /\
  (format_06X n = format_06X m -> n = m).
Proof.
  intros Hn Hm.
  destruct (format_06X_wire_code n Hn) as [Hw Hint].
  destruct (format_06X_wire_code m Hm) as [_ Hint'].
  split; [exact Hw |]. split; [exact Hint |].
  intros Heq. rewrite Heq, Hint' in Hint. now injection Hint.
Qed.

Lemma format_parse_round_trip_witness :
  is_wire_code (format_06X 11259375) = true /\
  int16 (format_06X 11259375) = Ok 11259375 /\
  (format_06X 11259375 = format_06X 0 -> 11259375 = 0).
Proof.
  apply (format_parse_round_trip 11259375 0); change (2 ^ 24) with 16777216; lia.
Defined.

(** X13.  The encoder truncates: the code of a setpoint [v] in the range is
    the integer part of [(v + 10) * 838860.74], up to the rounding of the
    two float operations, which is below [1e-8].  Since
    [20 * 838860.74 < 2 ^ 24 - 1], the code never exceeds [16777214]: the
    full-scale code ["FFFFFF"] is not produced for any setpoint. *)
Theorem encoder_truncates v :
  valid_num v = true -> in_range v = true ->
  exists n,
    DACChannel.set_process v = Ok (format_06X n) /\
    0 <= n <= 16777214 /\
    (inject_Z n
     <= (num_value v + 10) * F2Q DACChannel.scale + (1 # 100000000))%Q /\
    ((num_value v + 10) * F2Q DACChannel.scale - (1 # 100000000)
     < inject_Z n + 1)%Q /\
    format_06X n <> "FFFFFF"%string.
Proof.
  intros Hv Hr.
  destruct (set_process_in_range v Hv Hr) as (n & Hcode & Hn & Hle & Hlt).
  exists n. split; [exact Hcode |]. split; [lia |].
  rewrite F2Q_scale. split; [exact Hle |]. split; [exact Hlt |].
  intros Heq.
  assert (Hn' : 0 <= n < 2 ^ 24) by (change (2 ^ 24) with 16777216; lia).
  destruct (format_06X_wire_code n Hn') as [_ Hint].
  rewrite Heq in Hint. vm_compute in Hint. injection Hint as Hint. lia.
Qed.

Lemma encoder_truncates_witness :
  exists n,
    DACChannel.set_process (PInt 10) = Ok (format_06X n) /\
    0 <= n <= 16777214 /\
    (inject_Z n
     <= (num_value (PInt 10) + 10) * F2Q DACChannel.scale + (1 # 100000000))%Q /\
    ((num_value (PInt 10) + 10) * F2Q DACChannel.scale - (1 # 100000000)
     < inject_Z n + 1)%Q /\
    format_06X n <> "FFFFFF"%string.
Proof.
  apply (encoder_truncates (PInt 10)); reflexivity.
Defined.

(** X14.  The encoder raises on the floats that are not finite: [int] refuses
    a NaN with [ValueError] and an infinity with [OverflowError]. *)
Theorem set_process_rejects_non_finite x :
  is_finite x = false ->
  DACChannel.set_process (PFloat x)
  = Raise (match x with
           | S754_nan => ValueError "cannot convert float NaN to integer"
           | _ => OverflowError "cannot convert float infinity to integer"
           end).
Proof.
  destruct x as [s | [|] | | s m e]; intros H; try discriminate H;
    vm_compute; reflexivity.
Qed.

Lemma set_process_rejects_non_finite_witness :
  DACChannel.set_process (PFloat (S754_infinity false))
  = Raise (OverflowError "cannot convert float infinity to integer").
Proof.
  apply (set_process_rejects_non_finite (S754_infinity false)). reflexivity.
Defined.

(** X15.  In the range an [int] setpoint and the float of the same value have
    the same code. *)
Theorem int_and_float_setpoints_agree n :
  -10 <= n <= 10 ->
  DACChannel.set_process (PInt n) = DACChannel.set_process (PFloat (fconst n)).
Proof.
  intros Hn.
  replace n with (Z.of_nat (Z.to_nat (n + 10)) - 10) by lia.
  assert (Hk : (Z.to_nat (n + 10) <= 20)%nat) by lia.
  revert Hk. generalize (Z.to_nat (n + 10)). intros k Hk.
  do 21 (destruct k as [| k]; [vm_compute; reflexivity |]).
  lia.
Qed.

Lemma int_and_float_setpoints_agree_witness :
  DACChannel.set_process (PInt 7) = DACChannel.set_process (PFloat (fconst 7)).
Proof. apply (int_and_float_setpoints_agree 7). lia. Defined.

(** ** The input of the decoder *)






(** ** The second decoder *)

Lemma binary_round_aux_opp s m e l :
  binary_round_aux prec emax (negb s) m e l
  = SFopp (binary_round_aux prec emax s m e l).
Proof.
  unfold binary_round_aux.
  destruct (shr_fexp prec emax m e l) as [mrs' e'].
  destruct (shr_fexp prec emax _ e' loc_Exact) as [mrs'' e''].
  destruct (shr_m mrs''); try reflexivity.
  destruct (e'' <=? emax - prec); reflexivity.
Qed.

Lemma fconst_opp k : fconst (- k) = SFopp (fconst k) \/ k = 0.
Proof.
  destruct k as [| p | p]; [now right | left | left]; unfold fconst;
    cbn [Z.opp binary_normalize]; unfold binary_round.
  - destruct (shl_align p 0 _) as [mz ez].
    apply (binary_round_aux_opp false).
  - destruct (shl_align p 0 _) as [mz ez].
    change (binary_round_aux prec emax true (Zpos mz) ez loc_Exact)
      with (binary_round_aux prec emax (negb false) (Zpos mz) ez loc_Exact).
    rewrite (binary_round_aux_opp false (Zpos mz) ez loc_Exact).
    now destruct (binary_round_aux prec emax false (Zpos mz) ez loc_Exact)
      as [[|] | [|] | | [|] ? ?].
Qed.

Lemma fdiv_opp a mb eb :
  fdiv (SFopp a) (S754_finite false mb eb)
  = SFopp (fdiv a (S754_finite false mb eb)).
Proof.
  destruct a as [s | s | | s m e]; try reflexivity; try (destruct s; reflexivity).
  unfold fdiv, SFdiv. cbn [SFopp].
  destruct (SFdiv_core_binary prec emax (Zpos m) e (Zpos mb) eb) as [[mz ez] lz].
  rewrite !xorb_false_r. apply binary_round_aux_opp.
Qed.

Lemma fmul_opp a mb eb :
  fmul (SFopp a) (S754_finite false mb eb)
  = SFopp (fmul a (S754_finite false mb eb)).
Proof.
  destruct a as [s | s | | s m e]; try reflexivity; try (destruct s; reflexivity).
  unfold fmul, SFmul. cbn [SFopp].
  rewrite !xorb_false_r. apply binary_round_aux_opp.
Qed.

Lemma F2Q_opp x : (F2Q (SFopp x) == - F2Q x)%Q.
Proof.
  destruct x as [s | s | | s m e]; try reflexivity.
  cbn [SFopp]. rewrite !F2Q_finite. destruct s; cbn [negb]; ring.
Qed.

Lemma is_finite_opp x : is_finite (SFopp x) = is_finite x.
Proof. destruct x; reflexivity. Qed.

Lemma fconst_8388607 :
  fconst 8388607 = S754_finite false 9007198180999168 (-30).
Proof. vm_compute. reflexivity. Qed.

Lemma F2Q_fconst_8388607 : (F2Q (fconst 8388607) == 8388607)%Q.
Proof. vm_compute. reflexivity. Qed.

Lemma pow2_1 : (2 ^ 1 == 2)%Q.
Proof. reflexivity. Qed.

Lemma pow2_m53 : (2 ^ (1 - 54) == 1 # 9007199254740992)%Q.
Proof. vm_compute. reflexivity. Qed.

(** [(k / 8388607) * 10] for an [int] [k] between [0] and [2 ^ 23]. *)
Lemma legacy_magnitude k :
  0 <= k <= 8388608 ->
  let p := fmul (fdiv (fconst k) (fconst 8388607)) (fconst 10) in
  is_nonneg p = true /\
  (Qabs (F2Q p - inject_Z k * (10 # 8388607)) <= 1 # 100000000000000)%Q.
Proof.
  intros Hk.
  assert (HkQ : (0 <= inject_Z k)%Q /\ (inject_Z k <= 8388608)%Q).
  { change 0%Q with (inject_Z 0). change 8388608%Q with (inject_Z 8388608).
    rewrite <- !Zle_Qle. lia. }
  destruct HkQ as [Hk0 Hk1].
  destruct (float_of_int_error k 24) as (a & _ & -> & Hann & Haerr).
  - lia.
  - rewrite pow2_24. lra.
  - lia.
  - rewrite pow2_m30 in Haerr. apply Qabs_Qle_condition in Haerr.
    rewrite fconst_8388607, fconst_10.
    assert (Hd : forall x : Q,
               (x / F2Q (S754_finite false 9007198180999168 (-30))
                == x * (1 # 8388607))%Q).
    { intros x. rewrite <- fconst_8388607, F2Q_fconst_8388607. reflexivity. }
    destruct (fdiv_error (fconst k) 9007198180999168 (-30) 1 Hann)
      as (Hqnn & Hqerr).
    + rewrite Hd, pow2_1. lra.
    + lia.
    + rewrite Hd, pow2_m53 in Hqerr. apply Qabs_Qle_condition in Hqerr.
      pose proof (is_nonneg_F2Q _ Hqnn) as Hq0.
      assert (Hten : (F2Q (S754_finite false 5629499534213120 (-49)) == 10)%Q)
        by (rewrite <- fconst_10; apply F2Q_fconst_10).
      destruct (fmul_error _ 5629499534213120 (-49) 4 Hqnn) as (Hpnn & Hperr).
      * vm_compute. discriminate.
      * rewrite Hten, pow2_4. lra.
      * lia.
      * rewrite Hten, pow2_m50 in Hperr. apply Qabs_Qle_condition in Hperr.
        split; [exact Hpnn |]. apply Qabs_Qle_condition. lra.
Qed.

(** What [_from_24bit_hex] returns for a 24-bit value [n], with [val]
    the two's-complement reading of [n]. *)
Lemma from_24bit_hex_error s n :
  int16 s = Ok n -> 0 <= n < 2 ^ 24 ->
  let val := if 0x800000 <=? n then n - 0x1000000 else n in
  exists a,
    DACChannel._from_24bit_hex s = Ok a /\ is_finite a = true /\
    (Qabs (F2Q a - inject_Z val * (10 # 8388607)) <= 1 # 100000000000000)%Q /\
    (0 <= val -> is_nonneg a = true).
Proof.
  intros Hs Hn val. rewrite (from_24bit_hex_value s n Hs Hn). fold val.
  eexists. split; [reflexivity |].
  change (2 ^ 24) with 16777216 in Hn.
  destruct (Z.leb_spec 0x800000 n) as [Hhi | Hlo].
  - assert (Hk : 0 <= - val <= 8388608) by (subst val; lia).
    destruct (legacy_magnitude (- val) Hk) as [Hnn Herr].
    destruct (fconst_opp (- val)) as [Hopp | H0]; [| subst val; lia].
    rewrite Z.opp_involutive in Hopp. rewrite Hopp.
    rewrite fconst_8388607, fconst_10, fdiv_opp, fmul_opp.
    rewrite <- fconst_8388607, <- fconst_10.
    rewrite is_finite_opp, F2Q_opp.
    split; [apply is_nonneg_finite, Hnn |]. split.
    + rewrite inject_Z_opp in Herr.
      apply Qabs_Qle_condition in Herr. apply Qabs_Qle_condition. lra.
    + intros H. subst val. lia.
  - assert (Hk : 0 <= val <= 8388608) by (subst val; lia).
    destruct (legacy_magnitude val Hk) as [Hnn Herr].
    split; [apply is_nonneg_finite, Hnn |]. split; [exact Herr |].
    intros _. exact Hnn.
Qed.

(** X17.  [_from_24bit_hex] on a 24-bit code: the code is read as a
    two's-complement number [val], from [-8388608] to [8388607], and the
    result is the finite float [val / 8388607 * 10] up to [1e-14]; it
    lies between [-10.0000012] and [10]. *)
Theorem from_24bit_hex_is_signed s n :
  int16 s = Ok n -> 0 <= n < 2 ^ 24 ->
  exists a,
    DACChannel._from_24bit_hex s = Ok a /\ is_finite a = true /\
    (Qabs (F2Q a
           - inject_Z (if 0x800000 <=? n then n - 0x1000000 else n)
             * (10 # 8388607))
     <= 1 # 100000000000000)%Q /\
    (- (100000012 # 10000000) <= F2Q a)%Q /\
    (F2Q a <= 10)%Q.
Proof.
  intros Hs Hn.
  destruct (from_24bit_hex_error s n Hs Hn) as (a & Ha & Hfin & Herr & _).
  exists a. split; [exact Ha |]. split; [exact Hfin |]. split; [exact Herr |].
  change (2 ^ 24) with 16777216 in Hn.
  destruct (Z.eq_dec n 8388607) as [-> | Hne].
  - rewrite (from_24bit_hex_value s 8388607 Hs) in Ha
      by (change (2 ^ 24) with 16777216; lia).
    injection Ha as <-. split; vm_compute; discriminate.
  - set (val := if 0x800000 <=? n then n - 0x1000000 else n) in *.
    assert (Hv : (- (8388608) <= inject_Z val)%Q /\
                 (inject_Z val <= 8388606)%Q).
    { change (- (8388608))%Q with (inject_Z (-8388608)).
      change 8388606%Q with (inject_Z 8388606). rewrite <- !Zle_Qle.
      subst val. destruct (Z.leb_spec 0x800000 n); lia. }
    apply Qabs_Qle_condition in Herr. split; lra.
Qed.

Lemma from_24bit_hex_is_signed_witness :
  exists a,
    DACChannel._from_24bit_hex "800000" = Ok a /\ is_finite a = true /\
    (Qabs (F2Q a - inject_Z (8388608 - 16777216) * (10 # 8388607))
     <= 1 # 100000000000000)%Q /\
    (- (100000012 # 10000000) <= F2Q a)%Q /\
    (F2Q a <= 10)%Q.
Proof.
  apply (from_24bit_hex_is_signed "800000" 8388608).
  - vm_compute. reflexivity.
  - change (2 ^ 24) with 16777216. lia.
Defined.

(** X18.  The two decoders never agree: on every 24-bit code the voltage of
    [_from_24bit_hex] and the voltage of the live decoder have opposite
    signs.  Below [0x800000] the first is not negative and the second is
    negative; from [0x800000] on the first is negative and the second
    positive. *)
Theorem decoders_never_agree s n :
  int16 s = Ok n -> 0 <= n < 2 ^ 24 ->
  exists a b,
    DACChannel._from_24bit_hex s = Ok a /\ DACChannel.cast s = Ok b /\
    is_finite a = true /\ is_finite b = true /\
    (if 0x800000 <=? n
     then (F2Q a < 0)%Q /\ (0 < F2Q b)%Q
     else (0 <= F2Q a)%Q /\ (F2Q b < 0)%Q) /\
    a <> b.
Proof.
  intros Hs Hn.
  destruct (from_24bit_hex_error s n Hs Hn) as (a & Ha & Hfa & Haerr & Hann).
  destruct (cast_value s n Hs Hn) as (b & Hb & Hfb & _ & Hberr).
  exists a, b. split; [exact Ha |]. split; [exact Hb |].
  split; [exact Hfa |]. split; [exact Hfb |].
  apply Qabs_Qle_condition in Haerr. apply Qabs_Qle_condition in Hberr.
  change (2 ^ 24) with 16777216 in Hn.
  assert (Hsign : if 0x800000 <=? n
                  then (F2Q a < 0)%Q /\ (0 < F2Q b)%Q
                  else (0 <= F2Q a)%Q /\ (F2Q b < 0)%Q).
  { destruct (Z.leb_spec 0x800000 n) as [Hhi | Hlo].
    - assert (Hq : (8388608 <= inject_Z n)%Q /\
                   (inject_Z (n - 16777216) <= -1)%Q).
      { change 8388608%Q with (inject_Z 8388608).
        change (-1)%Q with (inject_Z (-1)). rewrite <- !Zle_Qle. lia. }
      destruct Hq. split; lra.
    - assert (Hq : (inject_Z n <= 8388607)%Q).
      { change 8388607%Q with (inject_Z 8388607). rewrite <- Zle_Qle. lia. }
      split; [apply is_nonneg_F2Q, Hann; lia | lra]. }
  split; [exact Hsign |].
  intros ->. destruct (0x800000 <=? n); destruct Hsign; lra.
Qed.

Lemma decoders_never_agree_witness :
  exists a b,
    DACChannel._from_24bit_hex "7FFFFF" = Ok a /\
    DACChannel.cast "7FFFFF" = Ok b /\
    is_finite a = true /\ is_finite b = true /\
    ((0 <= F2Q a)%Q /\ (F2Q b < 0)%Q) /\ a <> b.
Proof.
  apply (decoders_never_agree "7FFFFF" 8388607).
  - vm_compute. reflexivity.
  - change (2 ^ 24) with 16777216. lia.
Defined.

(** ** Reading a code back and writing it again *)

(** The encoder on a finite float whose value lies in [-10, 10]. *)
Lemma set_process_bounded x :
  is_finite x = true -> (-10 <= F2Q x)%Q -> (F2Q x <= 10)%Q ->
  exists n, DACChannel.set_process (PFloat x) = Ok (format_06X n) /\
    0 <= n < 16777215 /\
    (inject_Z n <= (F2Q x + 10) * (3602879444198359 # 4294967296)
                   + (1 # 100000000))%Q /\
    ((F2Q x + 10) * (3602879444198359 # 4294967296)
       - (1 # 100000000) < inject_Z n + 1)%Q.
Proof.
  intros Hfin Hge Hle.
  destruct (fadd_error x (fconst 10) 5) as (_ & Herr & Hnn).
  - exact Hfin.
  - reflexivity.
  - rewrite F2Q_fconst_10, pow2_5. apply Qabs_Qlt_condition. lra.
  - lia.
  - rewrite F2Q_fconst_10 in Herr, Hnn. rewrite pow2_m49 in Herr.
    assert (Hnn' : is_nonneg (fadd x (fconst 10)) = true) by (apply Hnn; lra).
    clear Hnn. apply Qabs_Qle_condition in Herr.
    destruct (fmul_error _ 7205758888396718 (-33) 24 Hnn') as (Hpn & Hperr).
    + vm_compute. discriminate.
    + fold DACChannel.scale. rewrite F2Q_scale, pow2_24. lra.
    + lia.
    + fold DACChannel.scale in Hpn, Hperr.
      rewrite F2Q_scale, pow2_m30 in Hperr.
      apply Qabs_Qle_condition in Hperr.
      destruct (int_of_float_floor _ Hpn) as (n & Hn & Hn0 & Hnle & Hnlt).
      exists n. split.
      * unfold DACChannel.set_process. cbn [num_add_int].
        rewrite float_of_int_10. cbn [res_bind num_mul_float].
        rewrite Hn. reflexivity.
      * split; [| split; lra].
        split; [exact Hn0 |].
        assert (Hq : (inject_Z n < inject_Z 16777215)%Q).
        { change (inject_Z 16777215) with 16777215%Q. lra. }
        rewrite <- Zlt_Qlt in Hq. exact Hq.
Qed.

(** X19.  Decoding a code and encoding the voltage again gives the code back
    or the code just below it, never anything else: a setpoint read back
    and written again can lose one step, and does for the code
    ["000001"], which comes back as ["000000"]. *)
Theorem reencoding_loses_at_most_one_step n :
  0 <= n <= 16777214 ->
  (exists d m,
     DACChannel.cast (format_06X n) = Ok d /\
     DACChannel.set_process (PFloat d) = Ok (format_06X m) /\
     (m = n \/ m = n - 1) /\ 0 <= m) /\
  (exists d,
     DACChannel.cast "000001" = Ok d /\
     DACChannel.set_process (PFloat d) = Ok "000000"%string).
Proof.
  intros Hn. split;
    [| eexists; split; [vm_compute; reflexivity | vm_compute; reflexivity]].
  assert (Hn' : 0 <= n < 2 ^ 24) by (change (2 ^ 24) with 16777216; lia).
  destruct (format_06X_wire_code n Hn') as [_ Hint].
  destruct (cast_value _ n Hint Hn') as (d & Hd & Hfin & Heq & Herr).
  apply Qabs_Qle_condition in Herr.
  assert (HnQ : (0 <= inject_Z n)%Q /\ (inject_Z n <= 16777214)%Q).
  { change 0%Q with (inject_Z 0). change 16777214%Q with (inject_Z 16777214).
    rewrite <- !Zle_Qle. lia. }
  destruct HnQ as [Hn0 Hn1].
  assert (Hge : (-10 <= F2Q d)%Q).
  { destruct (Z.eq_dec n 0) as [-> | Hnz].
    - rewrite Heq. vm_compute. discriminate.
    - assert (H1 : (1 <= inject_Z n)%Q).
      { change 1%Q with (inject_Z 1). rewrite <- Zle_Qle. lia. }
      lra. }
  assert (Hle : (F2Q d <= 10)%Q) by lra.
  destruct (set_process_bounded d Hfin Hge Hle) as (m & Hm & Hm0 & Hmle & Hmlt).
  exists d, m. split; [exact Hd |]. split; [exact Hm |]. split; [| lia].
  assert (H1 : (inject_Z m < inject_Z (n + 1))%Q).
  { rewrite inject_Z_plus. change (inject_Z 1) with 1%Q. lra. }
  assert (H2 : (inject_Z n < inject_Z (m + 2))%Q).
  { rewrite inject_Z_plus. change (inject_Z 2) with 2%Q. lra. }
  rewrite <- Zlt_Qlt in H1, H2. lia.
Qed.

Lemma reencoding_loses_at_most_one_step_witness :
  exists d m,
    DACChannel.cast (format_06X 8388607) = Ok d /\
    DACChannel.set_process (PFloat d) = Ok (format_06X m) /\
    (m = 8388607 \/ m = 8388607 - 1) /\ 0 <= m.
Proof.
  apply (proj1 (reencoding_loses_at_most_one_step 8388607 ltac:(lia))).
Defined.

(** ** Order and resolution *)

(** X20.  Setpoints in the range that are at least [1.2e-6] apart have
    different codes, in the order of the setpoints; and whatever their
    distance, the code of the lower setpoint exceeds the code of the
    higher one by at most one step. *)
Theorem encoder_resolution v1 v2 :
  valid_num v1 = true -> in_range v1 = true ->
  valid_num v2 = true -> in_range v2 = true ->
  exists n1 n2,
    DACChannel.set_process v1 = Ok (format_06X n1) /\
    DACChannel.set_process v2 = Ok (format_06X n2) /\
    ((num_value v1 <= num_value v2)%Q -> n1 <= n2 + 1) /\
    ((num_value v1 + (12 # 10000000) <= num_value v2)%Q ->
     n1 < n2 /\ format_06X n1 <> format_06X n2).
Proof.
  intros Hv1 Hr1 Hv2 Hr2.
  destruct (set_process_in_range v1 Hv1 Hr1) as (n1 & Hc1 & Hn1 & Hle1 & Hlt1).
  destruct (set_process_in_range v2 Hv2 Hr2) as (n2 & Hc2 & Hn2 & Hle2 & Hlt2).
  exists n1, n2. split; [exact Hc1 |]. split; [exact Hc2 |]. split.
  - intros Hle.
    assert (H : (inject_Z n1 < inject_Z (n2 + 2))%Q).
    { rewrite inject_Z_plus. change (inject_Z 2) with 2%Q. lra. }
    rewrite <- Zlt_Qlt in H. lia.
  - intros Hsep.
    assert (H : (inject_Z n1 < inject_Z (n2 + 1))%Q).
    { rewrite inject_Z_plus. change (inject_Z 1) with 1%Q. lra. }
    rewrite <- Zlt_Qlt in H.
    assert (Hlt : n1 < n2).
    { assert (H' : (inject_Z (n1 + 1) < inject_Z (n2 + 1))%Q).
      { rewrite !inject_Z_plus. change (inject_Z 1) with 1%Q. lra. }
      rewrite <- Zlt_Qlt in H'. lia. }
    split; [exact Hlt |]. intros Heq.
    assert (Hb1 : 0 <= n1 < 2 ^ 24) by (change (2 ^ 24) with 16777216; lia).
    assert (Hb2 : 0 <= n2 < 2 ^ 24) by (change (2 ^ 24) with 16777216; lia).
    destruct (format_06X_wire_code n1 Hb1) as [_ Hi1].
    destruct (format_06X_wire_code n2 Hb2) as [_ Hi2].
    rewrite Heq, Hi2 in Hi1. injection Hi1 as Hi1. lia.
Qed.

Lemma encoder_resolution_witness :
  exists n1 n2,
    DACChannel.set_process (PInt 0) = Ok (format_06X n1) /\
    DACChannel.set_process (PInt 1) = Ok (format_06X n2) /\
    ((num_value (PInt 0) <= num_value (PInt 1))%Q -> n1 <= n2 + 1) /\
    ((num_value (PInt 0) + (12 # 10000000) <= num_value (PInt 1))%Q ->
     n1 < n2 /\ format_06X n1 <> format_06X n2).
Proof.
  apply (encoder_resolution (PInt 0) (PInt 1)); reflexivity.
Defined.

(** X21.  The decoder is strictly increasing on the 24-bit codes: a higher
    code decodes to a voltage that is higher by more than [1e-6]; and no
    code decodes below [-10]. *)
Theorem decoder_is_strictly_increasing n1 n2 :
  0 <= n1 -> n1 < n2 -> n2 < 2 ^ 24 ->
  exists d1 d2,
    DACChannel.cast (format_06X n1) = Ok d1 /\
    DACChannel.cast (format_06X n2) = Ok d2 /\
    (-10 <= F2Q d1)%Q /\ (F2Q d1 + (1 # 1000000) < F2Q d2)%Q /\
    (F2Q d2 < 10 + (1 # 1000000))%Q.
Proof.
  intros H0 Hlt Hhi.
  assert (Hb1 : 0 <= n1 < 2 ^ 24) by lia.
  assert (Hb2 : 0 <= n2 < 2 ^ 24) by lia.
  destruct (format_06X_wire_code n1 Hb1) as [_ Hi1].
  destruct (format_06X_wire_code n2 Hb2) as [_ Hi2].
  destruct (cast_value _ n1 Hi1 Hb1) as (d1 & Hd1 & _ & Heq1 & He1).
  destruct (cast_value _ n2 Hi2 Hb2) as (d2 & Hd2 & _ & _ & He2).
  apply Qabs_Qle_condition in He1. apply Qabs_Qle_condition in He2.
  exists d1, d2. split; [exact Hd1 |]. split; [exact Hd2 |].
  change (2 ^ 24) with 16777216 in Hhi.
  assert (Hq : (inject_Z n1 + 1 <= inject_Z n2)%Q /\
               (inject_Z n2 <= 16777215)%Q /\ (0 <= inject_Z n1)%Q).
  { change 1%Q with (inject_Z 1). rewrite <- inject_Z_plus.
    change 16777215%Q with (inject_Z 16777215). change 0%Q with (inject_Z 0).
    rewrite <- !Zle_Qle. lia. }
  destruct Hq as (Hq1 & Hq2 & Hq0).
  split; [| split; lra].
  destruct (Z.eq_dec n1 0) as [-> | Hnz].
  - rewrite Heq1. vm_compute. discriminate.
  - assert (H1 : (1 <= inject_Z n1)%Q).
    { change 1%Q with (inject_Z 1). rewrite <- Zle_Qle. lia. }
    lra.
Qed.

Lemma decoder_is_strictly_increasing_witness :
  exists d1 d2,
    DACChannel.cast (format_06X 16777214) = Ok d1 /\
    DACChannel.cast (format_06X 16777215) = Ok d2 /\
    (-10 <= F2Q d1)%Q /\ (F2Q d1 + (1 # 1000000) < F2Q d2)%Q /\
    (F2Q d2 < 10 + (1 # 1000000))%Q.
Proof.
  apply (decoder_is_strictly_increasing 16777214 16777215);
    change (2 ^ 24) with 16777216; lia.
Defined.

(** ** What the setters leave on the line *)

(** X22.  The setter of [enabled] writes its command and reads nothing: no
    handshake is taken from the adapter, so a line the device sends in
    answer stays there for the next read. *)
Theorem set_enabled_skips_handshake ch on t :
  DACChannel.set_enabled ch on t
  = (Ok tt,
     mkAdapter (sent t ++ [channel_command ch (if on then "ON" else "OFF")])
               (incoming t)) /\
  fst (DACChannel.check_set_errors (snd (DACChannel.set_enabled ch on t)))
  = fst (DACChannel.check_set_errors t).
Proof.
  split; [apply set_enabled_run |].
  rewrite set_enabled_run. cbn [snd].
  rewrite !(handshake_run _ _ (or_introl eq_refl)). cbn [incoming].
  destruct (incoming t); reflexivity.
Qed.

(** X23.  The setter of [voltage_setpoint] never writes the full-scale code:
    whatever the setpoint, the code it writes reads as at most
    [16777214], one step below ["FFFFFF"]. *)
Theorem full_scale_is_never_sent ch v t :
  valid_num v = true ->
  exists code n,
    sent (snd (DACChannel.set_voltage_setpoint ch v t))
    = sent t ++ [channel_command ch code] /\
    int16 code = Ok n /\ 0 <= n <= 16777214 /\ code <> "FFFFFF"%string.
Proof.
  intros Hv. unfold DACChannel.set_voltage_setpoint, truncated_range.
  fold (in_range v). destruct (in_range v) eqn:Hr.
  - destruct (set_process_in_range v Hv Hr) as (n & Hcode & Hn & _).
    assert (Hn' : 0 <= n < 2 ^ 24) by (change (2 ^ 24) with 16777216; lia).
    destruct (format_06X_wire_code n Hn') as [_ Hint].
    exists (format_06X n), n. rewrite Hcode.
    split; [apply control_set_sent |]. split; [exact Hint |].
    split; [lia |]. intros Heq. rewrite Heq in Hint.
    vm_compute in Hint. injection Hint as Hint. lia.
  - destruct (num_gt_int v 10).
    + exists "FFFFFE"%string, 16777214. rewrite set_process_ten.
      split; [apply control_set_sent |]. split; [reflexivity |].
      split; [lia | discriminate].
    + exists "000000"%string, 0. rewrite set_process_minus_ten.
      split; [apply control_set_sent |]. split; [reflexivity |].
      split; [lia | discriminate].
Qed.

Lemma full_scale_is_never_sent_witness :
  exists code n,
    sent (snd (DACChannel.set_voltage_setpoint 5 (PFloat (fconst 10))
                 (mkAdapter [] ["0"%string])))
    = sent (mkAdapter [] ["0"%string]) ++ [channel_command 5 code] /\
    int16 code = Ok n /\ 0 <= n <= 16777214 /\ code <> "FFFFFF"%string.
Proof.
  apply (full_scale_is_never_sent 5 (PFloat (fconst 10))
           (mkAdapter [] ["0"%string])).
  vm_compute. reflexivity.
Defined.
